(** * OpenStack resource statistics: attribute extraction

    A shallow embedding of [nailgun/statistics/utils.py]: the table
    [collected_components_attrs], the two recursive lookups
    [_get_nested_attr] and [_get_value_from_nested_dict], and the
    orchestrating function [get_info_from_os_resource_manager].

    Python values are an inductive type; exceptions are an error result;
    attribute fetches and calls on the (opaque) client objects are logged in
    a trace, so that statements such as "list() is never called" can be
    stated. *)

From Stdlib Require Import String List ZArith.
From Stdlib Require Import Lia.
Import ListNotations.
Open Scope string_scope.
Open Scope list_scope.

Set Warnings "-register-all".

(** ** Python values *)

(** The exceptions the modelled code can raise or let through. *)
Inductive exn : Type :=
| KeyError (key : string)            (* d[k] on a missing key *)
| IndexError                         (* seq[0] on an empty sequence *)
| AttributeError (name : string)     (* x.name on an object without it *)
| TypeError                          (* calling or iterating the wrong thing *)
| Exception (message : string)       (* raise Exception(message) *)
| ClientError (message : string).    (* raised inside a client library *)

(** Values.  A [VObj] is an instance of a user-defined class:
    [obj_dict] is its [__dict__] (instance attributes), [obj_class] its class
    members (properties and methods taking no argument), and [obj_truth] what
    [bool(obj)] answers (True unless the class says otherwise).
    Built-in scalars and containers are modelled without attributes. *)
Inductive value : Type :=
| VNone
| VBool (b : bool)
| VInt (n : Z)
| VStr (s : string)
| VList (items : list value)
| VDict (items : list (string * value))
| VFun (body : outcome)
| VObj (obj_dict : list (string * value))
       (obj_class : list (string * member))
       (obj_truth : bool)
with outcome : Type :=
| Returns (v : value)
| Raises (e : exn)
with member : Type :=
| Property (getter : outcome)
| Method (body : outcome).

(** A Python dict with string keys, as an association list without
    duplicate keys, in insertion order. *)
Definition dict : Type := list (string * value).

Fixpoint assoc {A : Type} (l : list (string * A)) (k : string) : option A :=
  match l with
  | [] => None
  | (k', v) :: rest => if String.eqb k' k then Some v else assoc rest k
  end.

(** [d.get(k)]: the value, or None. *)
Definition dict_get (d : dict) (k : string) : value :=
  match assoc d k with
  | Some v => v
  | None => VNone
  end.

(** [d[k] = v]. *)
Fixpoint dict_set (d : dict) (k : string) (v : value) : dict :=
  match d with
  | [] => [(k, v)]
  | (k', v') :: rest =>
      if String.eqb k' k then (k', v) :: rest else (k', v') :: dict_set rest k v
  end.

(** [bool(x)]. *)
Definition truthy (x : value) : bool :=
  match x with
  | VNone => false
  | VBool b => b
  | VInt n => negb (Z.eqb n 0)
  | VStr s => negb (String.eqb s "")
  | VList items => match items with [] => false | _ => true end
  | VDict items => match items with [] => false | _ => true end
  | VFun _ => true
  | VObj _ _ t => t
  end.

(** [isinstance(x, dict)]. *)
Definition is_dict (x : value) : bool :=
  match x with
  | VDict _ => true
  | _ => false
  end.

(** Attribute lookup [x.name], before any logging: a property of the class
    wins, then the instance dict, then a method of the class. *)
Definition fetch_attr (x : value) (name : string) : outcome :=
  match x with
  | VObj od oc _ =>
      if String.eqb name "__dict__" then Returns (VDict od)
      else
        match assoc oc name with
        | Some (Property getter) => getter
        | found =>
            match assoc od name with
            | Some v => Returns v
            | None =>
                match found with
                | Some (Method body) => Returns (VFun body)
                | _ => Raises (AttributeError name)
                end
            end
        end
  | _ => Raises (AttributeError name)
  end.

(** ** Effects: a trace of what was asked of the objects, and failure *)

Inductive event : Type :=
| EGetattr (name : string)    (* an attribute was fetched (or tried) *)
| ECall (name : string).      (* a fetched callable was called *)

Inductive result (A : Type) : Type :=
| Ok (a : A)
| Err (e : exn).
Arguments Ok {A} a.
Arguments Err {A} e.

Definition M (A : Type) : Type := (list event * result A)%type.

Definition ret {A : Type} (a : A) : M A := ([], Ok a).
Definition raise {A : Type} (e : exn) : M A := ([], Err e).
Definition emit (ev : event) : M unit := ([ev], Ok tt).

Definition bind {A B : Type} (m : M A) (f : A -> M B) : M B :=
  match m with
  | (t, Err e) => (t, Err e)
  | (t, Ok a) => let (t', r) := f a in (t ++ t', r)
  end.

Declare Scope py_scope.
Delimit Scope py_scope with py.
Notation "x <- m ;; k" := (bind m (fun x => k))
  (at level 61, m at next level, right associativity) : py_scope.
Notation "m ;;; k" := (bind m (fun _ => k))
  (at level 61, right associativity) : py_scope.
Open Scope py_scope.

Definition of_outcome (o : outcome) : M value :=
  match o with
  | Returns v => ret v
  | Raises e => raise e
  end.

(** [x.name] *)
Definition getattr (x : value) (name : string) : M value :=
  emit (EGetattr name) ;;; of_outcome (fetch_attr x name).

(** [getattr(x, name, default)]: only AttributeError is turned into the
    default; what a property raises goes through. *)
Definition getattr_default (x : value) (name : string) (default : value)
  : M value :=
  emit (EGetattr name) ;;;
  match fetch_attr x name with
  | Returns v => ret v
  | Raises (AttributeError _) => ret default
  | Raises e => raise e
  end.

(** [hasattr(x, name)] (Python 2: any exception means False). *)
Definition hasattr (x : value) (name : string) : M bool :=
  emit (EGetattr name) ;;;
  match fetch_attr x name with
  | Returns _ => ret true
  | Raises _ => ret false
  end.

(** [x.name()] *)
Definition call_method (x : value) (name : string) : M value :=
  f <- getattr x name ;;
  match f with
  | VFun body => emit (ECall name) ;;; of_outcome body
  | _ => raise TypeError
  end.

(** [for item in x]: the items, for the built-in iterables of the model. *)
Definition iterate (x : value) : M (list value) :=
  match x with
  | VList items => ret items
  | VDict items => ret (map (fun kv => VStr (fst kv)) items)
  | VStr s =>
      ret (map (fun c => VStr (String c EmptyString)) (list_ascii_of_string s))
  | _ => raise TypeError
  end.

Definition lift {A : Type} (r : result A) : M A := ([], r).

(** ** The table of collected attributes *)

Record resource : Type := {
  attr_names : list (string * list string);
  resource_manager_path : list (list string)
}.

Definition collected_components_attrs : list (string * resource) := [
  ("vm", {|
     attr_names := [
       ("id", ["id"]);
       ("status", ["status"]);
       ("tenant_id", ["tenant_id"]);
       ("host_id", ["hostId"]);
       ("created_at", ["created"]);
       ("power_state", ["OS-EXT-STS:power_state"]);
       ("flavor_id", ["flavor"; "id"]);
       ("image_id", ["image"; "id"])
     ];
     resource_manager_path := [["nova"; "servers"]] |});
  ("flavor", {|
     attr_names := [
       ("id", ["id"]);
       ("ram", ["ram"]);
       ("vcpus", ["vcpus"]);
       ("ephemeral", ["OS-FLV-EXT-DATA:ephemeral"]);
       ("disk", ["disk"]);
       ("swap", ["swap"])
     ];
     resource_manager_path := [["nova"; "flavors"]] |});
  ("tenant", {|
     attr_names := [
       ("id", ["id"]);
       ("enabled_flag", ["enabled"])
     ];
     resource_manager_path := [["keystone"; "tenants"];
                               ["keystone"; "projects"]] |});
  ("image", {|
     attr_names := [
       ("id", ["id"]);
       ("minDisk", ["minDisk"]);
       ("minRam", ["minRam"]);
       ("sizeBytes", ["OS-EXT-IMG-SIZE:size"]);
       ("created_at", ["created"]);
       ("updated_at", ["updated"])
     ];
     resource_manager_path := [["nova"; "images"]] |});
  ("volume", {|
     attr_names := [
       ("id", ["id"]);
       ("availability_zone", ["availability_zone"]);
       ("encrypted_flag", ["encrypted"]);
       ("bootable_flag", ["bootable"]);
       ("status", ["status"]);
       ("volume_type", ["volume_type"]);
       ("size", ["size"]);
       ("host", ["os-vol-host-attr:host"]);
       ("snapshot_id", ["snapshot_id"]);
       ("attachments", ["attachments"]);
       ("tenant_id", ["os-vol-tenant-attr:tenant_id"])
     ];
     resource_manager_path := [["cinder"; "volumes"]] |})
].

(** [collected_components_attrs[resource_name]] *)
Definition lookup_resource (resource_name : string) : result resource :=
  match assoc collected_components_attrs resource_name with
  | Some r => Ok r
  | None => Err (KeyError resource_name)
  end.

(** ** The two recursive lookups *)

(** [x.get(key_path[0])] when [x] is not a dict: the fetch of [get] fails,
    or else [key_path[0]] is evaluated and the call is refused (no member of
    the model takes an argument). *)
Definition get_on_non_dict (x : value) (key_path : list string)
  : result value :=
  match fetch_attr x "get" with
  | Raises e => Err e
  | Returns _ =>
      match key_path with
      | [] => Err IndexError
      | _ :: _ => Err TypeError
      end
  end.

(** The key-path walk.  It works on the mapping an instance gave and asks
    nothing more of the client objects, so it logs nothing. *)
Fixpoint _get_value_from_nested_dict (obj_dict : value)
    (key_path : list string) {struct key_path} : result value :=
  match obj_dict with
  | VDict d =>
      match key_path with
      | [] => Err IndexError                  (* key_path[0] *)
      | key :: rest =>
          let value := dict_get d key in
          if is_dict value
          then _get_value_from_nested_dict value rest
          else Ok value
      end
  | _ => get_on_non_dict obj_dict key_path
  end.

(** The attribute-path walk. *)
Fixpoint _get_nested_attr (obj : value) (attr_path : list string)
  : M value :=
  match attr_path with
  | [] => ret VNone                              (* not all([obj, []]) *)
  | attr_name :: rest =>
      if negb (truthy obj) then ret VNone        (* not all([obj, ...]) *)
      else
        attr_value <- getattr_default obj attr_name VNone ;;
        match rest with
        | [] => ret attr_value                   (* len(attr_path) == 1 *)
        | _ :: _ => _get_nested_attr attr_value rest
        end
  end.

(** ** Extraction *)

Definition not_found_message (resource_name : string) : string :=
  "Resource manager for " ++ resource_name ++
  " could not be found by openstack client provider".

(** The [for ... else] loop over the candidate paths: the first truthy
    manager is used; when the loop ends without one, the [else] raises. *)
Fixpoint find_resource_manager (client_provider : value)
    (resource_name : string) (paths : list (list string)) : M value :=
  match paths with
  | [] => raise (Exception (not_found_message resource_name))
  | resource_manager_path :: rest =>
      resource_manager <-
        _get_nested_attr client_provider resource_manager_path ;;
      if truthy resource_manager then ret resource_manager
      else find_resource_manager client_provider resource_name rest
  end.

(** [inst.to_dict() if hasattr(inst, "to_dict") else inst.__dict__] *)
Definition instance_dict (inst : value) : M value :=
  has <- hasattr inst "to_dict" ;;
  if has then call_method inst "to_dict" else getattr inst "__dict__".

(** The inner loop: one entry of [inst_details] per declared attribute.
    The attributes are visited in the order of the table; their names are
    distinct, so the record as a mapping does not depend on that order. *)
Fixpoint fill_inst_details (inst : value)
    (attrs : list (string * list string)) (inst_details : dict) : M dict :=
  match attrs with
  | [] => ret inst_details
  | (attr_name, attr_path) :: rest =>
      obj_dict <- instance_dict inst ;;
      v <- lift (_get_value_from_nested_dict obj_dict attr_path) ;;
      fill_inst_details inst rest (dict_set inst_details attr_name v)
  end.

(** The outer loop: one record per instance, appended in order. *)
Fixpoint collect_resource_info (instances : list value)
    (attrs : list (string * list string)) (resource_info : list dict)
  : M (list dict) :=
  match instances with
  | [] => ret resource_info
  | inst :: rest =>
      inst_details <- fill_inst_details inst attrs [] ;;
      collect_resource_info rest attrs (resource_info ++ [inst_details])
  end.

Definition get_info_from_os_resource_manager (client_provider : value)
    (resource_name : string) : M (list dict) :=
  resource <- lift (lookup_resource resource_name) ;;
  resource_manager <-
    find_resource_manager client_provider resource_name
      (resource_manager_path resource) ;;
  instances_list <- call_method resource_manager "list" ;;
  instances <- iterate instances_list ;;
  collect_resource_info instances (attr_names resource) [].

(** ** The online controller and the proxy *)

(** A node of a cluster, with the attributes this module reads. *)
Record node : Type := {
  roles : list string;
  online : value;
  ip : string
}.

Record cluster : Type := {
  nodes : list node
}.

(** [x is True] *)
Definition is_True (x : value) : bool :=
  match x with
  | VBool true => true
  | _ => false
  end.

(** [lambda node: "controller" in node.roles and node.online is True] *)
Definition is_online_controller (n : node) : bool :=
  if existsb (String.eqb "controller") (roles n)
  then is_True (online n)
  else false.

(** [filter(..., cluster.nodes)[0]] *)
Definition _get_online_controller (c : cluster) : result node :=
  match filter is_online_controller (nodes c) with
  | [] => Err IndexError
  | n :: _ => Ok n
  end.

(** [proxy_port] is the text that [format] gives for
    [settings.OPENSTACK_INFO_COLLECTOR_PROXY_PORT]. *)
Definition get_proxy_for_cluster (proxy_port : string) (c : cluster)
  : result string :=
  match _get_online_controller c with
  | Err e => Err e
  | Ok controller =>
      let proxy_host := ip controller in
      Ok ("http://" ++ proxy_host ++ ":" ++ proxy_port)%string
  end.

(** ** The proxy of the environment *)

(** [os.environ] *)
Definition environ : Type := list (string * string).

(** [os.environ[k] = v] *)
Fixpoint env_set (env : environ) (k v : string) : environ :=
  match env with
  | [] => [(k, v)]
  | (k', v') :: rest =>
      if String.eqb k' k then (k', v) :: rest else (k', v') :: env_set rest k v
  end.

Fixpoint env_remove (env : environ) (k : string) : environ :=
  match env with
  | [] => []
  | (k', v') :: rest =>
      if String.eqb k' k then env_remove rest k else (k', v') :: env_remove rest k
  end.

(** [del os.environ[k]] *)
Definition env_del (env : environ) (k : string) : result environ :=
  match assoc env k with
  | Some _ => Ok (env_remove env k)
  | None => Err (KeyError k)
  end.

Inductive log_record : Type :=
| LogWarning (message : string)
| LogInfo (message : string)
| LogException (message : string).

(** What [set_proxy] does before its [yield]: the old value is kept when
    it is there and not empty, and the variable is set. *)
Definition set_proxy_enter (proxy : string) (env : environ)
  : environ * list log_record * option string :=
  let proxy_old_value :=
    match assoc env "http_proxy" with
    | Some old => if String.eqb old "" then None else Some old
    | None => None
    end in
  let logged :=
    match proxy_old_value with
    | Some old =>
        [LogWarning ("http_proxy variable is already set with value: " ++ old ++
                     ". Change to " ++ proxy ++
                     ". Old value will be restored after exit from script's " ++
                     "execution context")%string]
    | None => []
    end in
  (env_set env "http_proxy" proxy, logged, proxy_old_value).

(** What [set_proxy] does from its [yield] on: an exception of the block is
    logged and not raised again (every exception of the model is an
    [Exception]), then the [finally] restores or deletes.
    [text_of] is [six.text_type] on exceptions. *)
Definition set_proxy_exit (text_of : exn -> string)
    (proxy_old_value : option string) (outcome : result unit) (env : environ)
  : environ * list log_record * result unit :=
  let logged :=
    match outcome with
    | Err e =>
        [LogException
           ("Error while talking to proxy. Details: " ++ text_of e)%string]
    | Ok _ => []
    end in
  match proxy_old_value with
  | Some old =>
      (env_set env "http_proxy" old,
       logged ++ [LogInfo "Restoring old value for http_proxy"],
       Ok tt)
  | None =>
      let logged' :=
        logged ++ [LogInfo "Deleting set http_proxy environment variable"] in
      match env_del env "http_proxy" with
      | Ok env' => (env', logged', Ok tt)
      | Err e => (env, logged', Err e)
      end
  end.

(** [with set_proxy(proxy): block], the block being a change of the
    environment that may end with an exception. *)
Definition with_set_proxy (text_of : exn -> string) (proxy : string)
    (block : environ -> environ * result unit) (env : environ)
  : environ * list log_record * result unit :=
  let '(env1, logged1, proxy_old_value) := set_proxy_enter proxy env in
  let (env2, outcome) := block env1 in
  let '(env3, logged2, r) :=
    set_proxy_exit text_of proxy_old_value outcome env2 in
  (env3, logged1 ++ logged2, r).

(** ** The client provider *)

(** [x[k]] for a string [k]: only a dict can be subscripted by a string. *)
Definition subscript (x : value) (k : string) : result value :=
  match x with
  | VDict d =>
      match assoc d k with
      | Some v => Ok v
      | None => Err (KeyError k)
      end
  | _ => Err TypeError
  end.

(** A call of something outside this module, logged under its name. *)
Definition call {A : Type} (name : string) (r : result A) : M A :=
  ([ECall name], r).

(** The tuple [(os_user, os_password, os_tenant, auth_url)]. *)
Record creds : Type := {
  os_user : value;
  os_password : value;
  os_tenant : value;
  auth_url : string
}.

(** The keyword arguments given to the keystone discovery and clients. *)
Record auth_kwargs : Type := {
  kw_username : value;
  kw_password : value;
  kw_tenant_name : value;
  kw_project_name : value;
  kw_auth_url : string
}.

(** What the provider needs from outside this module.  A result stands for
    what the call returns or raises.  [keystone_Discover] is
    the discovery made with [auth_creds] and its [version_data()], giving the
    ["version"] tuple of every entry; [text_of_value] is what [format]
    writes for a value that is not a string; [AUTH_PORT] and
    [KEYSTONE_API_VERSION] are the settings as [format] writes them. *)
Record services (client : Type) : Type := {
  Cluster_get_creds : cluster -> result value;
  get_ip_by_network_name : node -> result value;
  text_of_value : value -> string;
  AUTH_PORT : string;
  KEYSTONE_API_VERSION : string;
  nova_Client : creds -> result client;
  cinder_Client : creds -> result client;
  keystone_Discover : auth_kwargs -> result (list (list Z));
  keystone_v2_Client : auth_kwargs -> result client;
  keystone_v3_Client : auth_kwargs -> result client
}.
Arguments Cluster_get_creds {client} _ _.
Arguments get_ip_by_network_name {client} _ _.
Arguments text_of_value {client} _ _.
Arguments AUTH_PORT {client} _.
Arguments KEYSTONE_API_VERSION {client} _.
Arguments nova_Client {client} _ _.
Arguments cinder_Client {client} _ _.
Arguments keystone_Discover {client} _ _.
Arguments keystone_v2_Client {client} _ _.
Arguments keystone_v3_Client {client} _ _.

(** ["{0}".format(x)] *)
Definition format_value {client : Type} (svc : services client) (x : value)
  : string :=
  match x with
  | VStr s => s
  | _ => text_of_value svc x
  end.

Definition _get_host_for_auth {client : Type} (svc : services client)
    (c : cluster) : M value :=
  controller <- lift (_get_online_controller c) ;;
  net <- call "NetworkManager._get_ip_by_network_name"
           (get_ip_by_network_name svc controller) ;;
  getattr net "ip_addr".

Definition discovery_failed_message (auth_creds : auth_kwargs) : string :=
  "Failed to discover keystone version for auth_url " ++ kw_auth_url auth_creds.

(** The loop of [_get_keystone_client] over the version data. *)
Fixpoint keystone_client_for {client : Type} (svc : services client)
    (auth_creds : auth_kwargs) (version_data : list (list Z)) : M client :=
  match version_data with
  | [] => raise (Exception (discovery_failed_message auth_creds))
  | version_tuple :: rest =>
      match version_tuple with
      | [] => raise IndexError                        (* ...["version"][0] *)
      | version :: _ =>
          if (version <=? 2)%Z
          then call "keystone_client_v2.Client"
                 (keystone_v2_Client svc auth_creds)
          else if (version =? 3)%Z
          then call "keystone_client_v3.Client"
                 (keystone_v3_Client svc auth_creds)
          else keystone_client_for svc auth_creds rest
      end
  end.

Definition _get_keystone_client {client : Type} (svc : services client)
    (auth_creds : auth_kwargs) : M client :=
  version_data <- call "keystone_discover.Discover"
                    (keystone_Discover svc auth_creds) ;;
  keystone_client_for svc auth_creds version_data.

(** The body of the property [credentials] when nothing is cached. *)
Definition compute_credentials {client : Type} (svc : services client)
    (c : cluster) : M creds :=
  access_data <- call "Cluster.get_creds" (Cluster_get_creds svc c) ;;
  user <- lift (subscript access_data "user") ;;
  os_user <- lift (subscript user "value") ;;
  password <- lift (subscript access_data "password") ;;
  os_password <- lift (subscript password "value") ;;
  tenant <- lift (subscript access_data "tenant") ;;
  os_tenant <- lift (subscript tenant "value") ;;
  auth_host <- _get_host_for_auth svc c ;;
  ret {| os_user := os_user;
         os_password := os_password;
         os_tenant := os_tenant;
         auth_url := ("http://" ++ format_value svc auth_host ++ ":" ++
                      AUTH_PORT svc ++ "/" ++ KEYSTONE_API_VERSION svc ++
                      "/")%string |}.

(** The provider object: its cluster and its four caches ([None] is the
    Python None; a client or a tuple that was made is never None). *)
Record ClientProvider (client : Type) : Type := {
  its_cluster : cluster;
  _nova : option client;
  _cinder : option client;
  _keystone : option client;
  _credentials : option creds
}.
Arguments its_cluster {client} _.
Arguments _nova {client} _.
Arguments _cinder {client} _.
Arguments _keystone {client} _.
Arguments _credentials {client} _.

(** [ClientProvider(cluster)] *)
Definition new_provider (client : Type) (c : cluster) : ClientProvider client :=
  {| its_cluster := c; _nova := None; _cinder := None; _keystone := None;
     _credentials := None |}.

Definition set_nova {client : Type} (self : ClientProvider client)
    (x : client) : ClientProvider client :=
  {| its_cluster := its_cluster self; _nova := Some x;
     _cinder := _cinder self; _keystone := _keystone self;
     _credentials := _credentials self |}.

Definition set_cinder {client : Type} (self : ClientProvider client)
    (x : client) : ClientProvider client :=
  {| its_cluster := its_cluster self; _nova := _nova self;
     _cinder := Some x; _keystone := _keystone self;
     _credentials := _credentials self |}.

Definition set_keystone {client : Type} (self : ClientProvider client)
    (x : client) : ClientProvider client :=
  {| its_cluster := its_cluster self; _nova := _nova self;
     _cinder := _cinder self; _keystone := Some x;
     _credentials := _credentials self |}.

Definition set_credentials {client : Type} (self : ClientProvider client)
    (x : creds) : ClientProvider client :=
  {| its_cluster := its_cluster self; _nova := _nova self;
     _cinder := _cinder self; _keystone := _keystone self;
     _credentials := Some x |}.

(** A method of the provider: from the object before to the trace, the
    result and the object after (an exception keeps what was assigned). *)
Definition SM (S A : Type) : Type := S -> list event * result A * S.

Definition sret {S A : Type} (a : A) : SM S A := fun s => ([], Ok a, s).

Definition sbind {S A B : Type} (m : SM S A) (f : A -> SM S B) : SM S B :=
  fun s =>
    let '(t, r, s1) := m s in
    match r with
    | Err e => (t, Err e, s1)
    | Ok a => let '(t2, r2, s2) := f a s1 in (t ++ t2, r2, s2)
    end.

Definition slift {S A : Type} (m : M A) : SM S A :=
  fun s => (fst m, snd m, s).

Definition sget {S : Type} : SM S S := fun s => ([], Ok s, s).

Definition sput {S : Type} (s' : S) : SM S unit := fun _ => ([], Ok tt, s').

Notation "x <~ m ;; k" := (sbind m (fun x => k))
  (at level 61, m at next level, right associativity) : py_scope.

(** The property [credentials]. *)
Definition credentials {client : Type} (svc : services client)
  : SM (ClientProvider client) creds :=
  self <~ sget ;;
  match _credentials self with
  | None =>
      c <~ slift (compute_credentials svc (its_cluster self)) ;;
      _ <~ sput (set_credentials self c) ;;
      sret c
  | Some c => sret c
  end.

(** The property [nova]. *)
Definition nova {client : Type} (svc : services client)
  : SM (ClientProvider client) client :=
  self <~ sget ;;
  match _nova self with
  | None =>
      c <~ credentials svc ;;
      x <~ slift (call "nova_client.Client" (nova_Client svc c)) ;;
      self' <~ sget ;;
      _ <~ sput (set_nova self' x) ;;
      sret x
  | Some x => sret x
  end.

(** The property [cinder]. *)
Definition cinder {client : Type} (svc : services client)
  : SM (ClientProvider client) client :=
  self <~ sget ;;
  match _cinder self with
  | None =>
      c <~ credentials svc ;;
      x <~ slift (call "cinder_client.Client" (cinder_Client svc c)) ;;
      self' <~ sget ;;
      _ <~ sput (set_cinder self' x) ;;
      sret x
  | Some x => sret x
  end.

(** The property [keystone]: [self.credentials] is read once for every
    entry of [auth_kwargs]. *)
Definition keystone {client : Type} (svc : services client)
  : SM (ClientProvider client) client :=
  self <~ sget ;;
  match _keystone self with
  | None =>
      c0 <~ credentials svc ;;
      c1 <~ credentials svc ;;
      c2 <~ credentials svc ;;
      c2' <~ credentials svc ;;
      c3 <~ credentials svc ;;
      x <~ slift (_get_keystone_client svc
                   {| kw_username := os_user c0;
                      kw_password := os_password c1;
                      kw_tenant_name := os_tenant c2;
                      kw_project_name := os_tenant c2';
                      kw_auth_url := auth_url c3 |}) ;;
      self' <~ sget ;;
      _ <~ sput (set_keystone self' x) ;;
      sret x
  | Some x => sret x
  end.

(** A version tuple that the discovery loop passes over: major above 3. *)
Definition passed_over (version_tuple : list Z) : bool :=
  match version_tuple with
  | version :: _ => (3 <? version)%Z
  | [] => false
  end.

(** The calls of [objects.Cluster.get_creds] in a trace. *)
Definition is_get_creds_call (ev : event) : bool :=
  match ev with
  | ECall name => String.eqb name "Cluster.get_creds"
  | EGetattr _ => false
  end.

(** ** Scenarios and predicates used in the statements *)

(** The inner loop without its trace, once the instance's mapping is known. *)
Fixpoint record_of (obj_dict : value) (attrs : list (string * list string))
    (inst_details : dict) : result dict :=
  match attrs with
  | [] => Ok inst_details
  | (attr_name, attr_path) :: rest =>
      match _get_value_from_nested_dict obj_dict attr_path with
      | Ok v => record_of obj_dict rest (dict_set inst_details attr_name v)
      | Err e => Err e
      end
  end.

Definition vm_instance : dict := [
  ("id", VStr "i-1");
  ("status", VStr "ACTIVE");
  ("hostId", VStr "h1");
  ("created", VStr "t0");
  ("OS-EXT-STS:power_state", VInt 1);
  ("flavor", VDict [("id", VStr "f1")]);
  ("image", VDict [("id", VStr "im1")])
].

Definition vm_record : dict := [
  ("id", VStr "i-1");
  ("status", VStr "ACTIVE");
  ("tenant_id", VNone);
  ("host_id", VStr "h1");
  ("created_at", VStr "t0");
  ("power_state", VInt 1);
  ("flavor_id", VStr "f1");
  ("image_id", VStr "im1")
].

(** A provider whose only client is [nova], with the manager [servers]. *)
Definition nova_provider (servers : value) : value :=
  VObj [("nova", VObj [("servers", servers)] [] true)] [] true.

(** A manager whose [list()] has the given outcome. *)
Definition manager (listing : outcome) : value :=
  VObj [] [("list", Method listing)] true.

(** An instance of the client library: its class has [to_dict()]. *)
Definition instance_with_to_dict (d : dict) : value :=
  VObj [] [("to_dict", Method (Returns (VDict d)))] true.

(** An instance without [to_dict]: its attributes are its mapping. *)
Definition plain_instance (d : dict) : value := VObj d [] true.

Definition flavor_instance : dict := [("flavor", VDict [("id", VInt 42)])].

(** A provider whose only client is [keystone], with both managers. *)
Definition keystone_provider (tenants projects : value) : value :=
  VObj [("keystone",
         VObj [("tenants", tenants); ("projects", projects)] [] true)]
       [] true.

Definition is_call (ev : event) : bool :=
  match ev with
  | ECall _ => true
  | EGetattr _ => false
  end.

(** A candidate path is unresolved when its walk gives a falsy value. *)
Definition unresolved (client_provider : value) (path : list string) : Prop :=
  exists v, snd (_get_nested_attr client_provider path) = Ok v /\
            truthy v = false.

(** A provider with no client at all. *)
Definition empty_provider : value := VObj [] [] true.

Definition resource_kinds : list string :=
  ["vm"; "flavor"; "tenant"; "image"; "volume"].

(** Walking [key_path] from [d] comes, through nested dicts only, to a key
    that the dict at hand does not have. *)
Fixpoint path_misses_key (d : dict) (key_path : list string) : bool :=
  match key_path with
  | [] => false
  | key :: rest =>
      match assoc d key with
      | None => true
      | Some (VDict d') => path_misses_key d' rest
      | Some _ => false
      end
  end.


(** Walking the whole of [key_path] from [d] goes through nested dicts and
    ends on a dict ([d] itself for the empty path). *)
Fixpoint path_ends_in_dict (d : dict) (key_path : list string) : bool :=
  match key_path with
  | [] => true
  | key :: rest =>
      match assoc d key with
      | Some (VDict d') => path_ends_in_dict d' rest
      | _ => false
      end
  end.

(** The calls of [list] in a trace. *)
Definition is_list_call (ev : event) : bool :=
  match ev with
  | ECall name => String.eqb name "list"
  | EGetattr _ => false
  end.

(** A mapping none of whose values is a mapping. *)
Definition flat (d : dict) : Prop :=
  forall key v, assoc d key = Some v -> is_dict v = false.

(** The calls of [to_dict] in a trace. *)
Definition is_to_dict_call (ev : event) : bool :=
  match ev with
  | ECall name => String.eqb name "to_dict"
  | EGetattr _ => false
  end.

(** What the table guarantees for every kind: distinct attribute names and
    no empty key path. *)
Definition well_formed (r : resource) : Prop :=
  NoDup (map fst (attr_names r)) /\
  Forall (fun np : string * list string => snd np <> []) (attr_names r).

(** Services for the examples: clients are named by a string. *)
Definition example_services (versions : list (list Z)) : services string :=
  {| Cluster_get_creds := fun _ =>
       Ok (VDict [("user", VDict [("value", VStr "admin")]);
                  ("password", VDict [("value", VStr "secret")]);
                  ("tenant", VDict [("value", VStr "admin")])]);
     get_ip_by_network_name := fun n =>
       Ok (VObj [("ip_addr", VStr (ip n))] [] true);
     text_of_value := fun _ => "";
     AUTH_PORT := "5000";
     KEYSTONE_API_VERSION := "v2.0";
     nova_Client := fun _ => Ok "nova";
     cinder_Client := fun _ => Ok "cinder";
     keystone_Discover := fun _ => Ok versions;
     keystone_v2_Client := fun _ => Ok "keystone v2";
     keystone_v3_Client := fun _ => Ok "keystone v3" |}.

Definition example_auth : auth_kwargs :=
  {| kw_username := VStr "admin"; kw_password := VStr "secret";
     kw_tenant_name := VStr "admin"; kw_project_name := VStr "admin";
     kw_auth_url := "http://10.0.0.4:5000/v2.0/" |}.

Definition example_cluster : cluster :=
  {| nodes := [{| roles := ["controller"]; online := VBool true;
                  ip := "10.0.0.4" |}] |}.

Definition example_creds : creds :=
  {| os_user := VStr "admin"; os_password := VStr "secret";
     os_tenant := VStr "admin"; auth_url := "http://10.0.0.4:5000/v2.0/" |}.

(** The keyword arguments that [keystone] makes from the credentials. *)
Definition auth_kwargs_of (c : creds) : auth_kwargs :=
  {| kw_username := os_user c;
     kw_password := os_password c;
     kw_tenant_name := os_tenant c;
     kw_project_name := os_tenant c;
     kw_auth_url := auth_url c |}.

(** Services whose nova client cannot be made. *)
Definition services_without_nova : services string :=
  {| Cluster_get_creds := Cluster_get_creds (example_services []);
     get_ip_by_network_name := get_ip_by_network_name (example_services []);
     text_of_value := text_of_value (example_services []);
     AUTH_PORT := "5000";
     KEYSTONE_API_VERSION := "v2.0";
     nova_Client := fun _ => Err (ClientError "unauthorized");
     cinder_Client := cinder_Client (example_services []);
     keystone_Discover := keystone_Discover (example_services []);
     keystone_v2_Client := keystone_v2_Client (example_services []);
     keystone_v3_Client := keystone_v3_Client (example_services []) |}.



(** What the key-path walk returns from [d], None standing in when it
    raises. *)
Definition walk_value (d : dict) (key_path : list string) : value :=
  match _get_value_from_nested_dict (VDict d) key_path with
  | Ok v => v
  | Err _ => VNone
  end.

(** ** Reasoning about the effect type *)

Lemma snd_bind {A B : Type} (m : M A) (f : A -> M B) :
  snd (bind m f) =
  match snd m with
  | Ok a => snd (f a)
  | Err e => Err e
  end.
Proof.
  destruct m as [t [a | e]]; simpl; [destruct (f a) | ]; reflexivity.
Qed.

Lemma fst_bind {A B : Type} (m : M A) (f : A -> M B) :
  fst (bind m f) =
  fst m ++ match snd m with
           | Ok a => fst (f a)
           | Err _ => []
           end.
Proof.
  destruct m as [t [a | e]]; simpl; [destruct (f a) | rewrite app_nil_r];
    reflexivity.
Qed.

Lemma bind_ok {A B : Type} (m : M A) (f : A -> M B) t a :
  m = (t, Ok a) -> bind m f = (t ++ fst (f a), snd (f a)).
Proof.
  intros ->. simpl. destruct (f a); reflexivity.
Qed.

Lemma bind_lift_ok {A B : Type} (a : A) (f : A -> M B) :
  bind (lift (Ok a)) f = f a.
Proof.
  unfold lift. simpl. destruct (f a); reflexivity.
Qed.

Lemma fill_inst_details_record_of inst obj_dict attrs :
  snd (instance_dict inst) = Ok obj_dict ->
  forall inst_details,
    snd (fill_inst_details inst attrs inst_details) =
    record_of obj_dict attrs inst_details.
Proof.
  intros Hd. induction attrs as [| [attr_name attr_path] rest IH];
    intros inst_details; cbn [fill_inst_details record_of].
  - reflexivity.
  - rewrite snd_bind, Hd. cbv beta iota. rewrite snd_bind.
    unfold lift. cbn [snd].
    destruct (_get_value_from_nested_dict obj_dict attr_path);
      [apply IH | reflexivity].
Qed.

Lemma collect_resource_info_one inst attrs :
  snd (collect_resource_info [inst] attrs []) =
  match snd (fill_inst_details inst attrs []) with
  | Ok inst_details => Ok [inst_details]
  | Err e => Err e
  end.
Proof.
  cbn [collect_resource_info]. rewrite snd_bind.
  destruct (snd (fill_inst_details inst attrs [])); reflexivity.
Qed.

(** ** The end-to-end scenario for virtual machines *)

(** C1: for the kind "vm", whenever the manager found under nova.servers
    lists one instance whose mapping is the scenario's, extraction returns
    exactly one record: id "i-1", status "ACTIVE", tenant_id None, host_id
    "h1", created_at "t0", power_state 1, flavor_id "f1", image_id "im1". *)
Theorem vm_scenario_record (client_provider mgr inst : value) :
  snd (find_resource_manager client_provider "vm" [["nova"; "servers"]])
    = Ok mgr ->
  snd (call_method mgr "list") = Ok (VList [inst]) ->
  snd (instance_dict inst) = Ok (VDict vm_instance) ->
  snd (get_info_from_os_resource_manager client_provider "vm")
    = Ok [vm_record].
Proof.
  intros Hmgr Hlist Hdict. unfold get_info_from_os_resource_manager.
  remember (lookup_resource "vm") as r eqn:E. vm_compute in E. subst r.
  rewrite bind_lift_ok. cbn [resource_manager_path attr_names].
  rewrite snd_bind, Hmgr. cbv beta iota.
  rewrite snd_bind, Hlist. cbv beta iota.
  rewrite snd_bind. cbn [iterate ret snd].
  rewrite collect_resource_info_one.
  rewrite (fill_inst_details_record_of _ _ _ Hdict).
  reflexivity.
Qed.

Lemma vm_scenario_record_witness :
  snd (get_info_from_os_resource_manager
         (nova_provider
            (manager (Returns (VList [instance_with_to_dict vm_instance]))))
         "vm")
  = Ok [vm_record].
Proof.
  apply (vm_scenario_record _
           (manager (Returns (VList [instance_with_to_dict vm_instance])))
           (instance_with_to_dict vm_instance));
    reflexivity.
Defined.

(** The same scenario when the instance has no [to_dict] and its attributes
    are read from [__dict__]. *)
Example vm_scenario_plain_instance :
  snd (get_info_from_os_resource_manager
         (nova_provider (manager (Returns (VList [plain_instance vm_instance]))))
         "vm")
  = Ok [vm_record].
Proof. reflexivity. Qed.

(** A bare dict among the listed instances has neither [to_dict] nor
    [__dict__]: the extraction needs objects. *)
Example bare_dict_instance :
  snd (get_info_from_os_resource_manager
         (nova_provider (manager (Returns (VList [VDict vm_instance]))))
         "vm")
  = Err (AttributeError "__dict__").
Proof. reflexivity. Qed.

(** ** The key-path walk *)

Lemma walk_stops_at_non_dict (d : dict) (key : string) (rest : list string) :
  is_dict (dict_get d key) = false ->
  _get_value_from_nested_dict (VDict d) (key :: rest) = Ok (dict_get d key).
Proof.
  intros H. cbn [_get_value_from_nested_dict]. rewrite H. reflexivity.
Qed.

(** C2: on {"flavor": {"id": 42}} the paths ["flavor", "id"] and
    ["flavor", "id", "extra"] both give 42; in general the walk returns the
    value under the current key as soon as it is not a dict, whatever
    segments are left. *)
Theorem key_walk_returns_first_non_dict :
  _get_value_from_nested_dict (VDict flavor_instance) ["flavor"; "id"]
    = Ok (VInt 42) /\
  _get_value_from_nested_dict (VDict flavor_instance) ["flavor"; "id"; "extra"]
    = Ok (VInt 42) /\
  forall (d : dict) (key : string) (rest : list string),
    is_dict (dict_get d key) = false ->
    _get_value_from_nested_dict (VDict d) (key :: rest) = Ok (dict_get d key).
Proof.
  split; [reflexivity | split; [reflexivity | ]].
  exact walk_stops_at_non_dict.
Qed.

Lemma key_walk_returns_first_non_dict_witness :
  _get_value_from_nested_dict (VDict [("id", VInt 42)]) ["id"; "extra"]
    = Ok (VInt 42).
Proof.
  apply (proj2 (proj2 key_walk_returns_first_non_dict)
           [("id", VInt 42)] "id" ["extra"]).
  reflexivity.
Defined.

(** ** Finding the resource manager *)

Lemma getattr_default_returns (x : value) (name : string) (default v : value) :
  fetch_attr x name = Returns v ->
  getattr_default x name default = ([EGetattr name], Ok v).
Proof.
  intros H. unfold getattr_default. rewrite H. reflexivity.
Qed.


Lemma find_resource_manager_first (client_provider : value)
    (resource_name : string) (path : list string) (rest : list (list string))
    (t : list event) (mgr : value) :
  _get_nested_attr client_provider path = (t, Ok mgr) ->
  truthy mgr = true ->
  find_resource_manager client_provider resource_name (path :: rest)
    = (t, Ok mgr).
Proof.
  intros Hwalk Htrue. cbn [find_resource_manager].
  rewrite (bind_ok _ _ _ _ Hwalk), Htrue. cbn [ret fst snd].
  rewrite app_nil_r. reflexivity.
Qed.

Lemma find_resource_manager_skip (client_provider : value)
    (resource_name : string) (path : list string) (rest : list (list string))
    (t : list event) (v : value) :
  _get_nested_attr client_provider path = (t, Ok v) ->
  truthy v = false ->
  find_resource_manager client_provider resource_name (path :: rest)
    = (t ++ fst (find_resource_manager client_provider resource_name rest),
       snd (find_resource_manager client_provider resource_name rest)).
Proof.
  intros Hwalk Hfalse. cbn [find_resource_manager].
  rewrite (bind_ok _ _ _ _ Hwalk), Hfalse. reflexivity.
Qed.

(** C3: the first candidate path that gives a truthy manager is the answer,
    whatever the later candidates are, and its trace is the trace of that
    one walk; for the kind "tenant", a keystone client with both [tenants]
    and [projects] gives [tenants], and [projects] is never fetched. *)
Theorem first_resolving_path_wins :
  (forall (client_provider : value) (resource_name : string)
          (A : list string) (later : list (list string))
          (t : list event) (mgr : value),
      _get_nested_attr client_provider A = (t, Ok mgr) ->
      truthy mgr = true ->
      find_resource_manager client_provider resource_name (A :: later)
        = (t, Ok mgr)) /\
  (forall (client_provider keystone tenants projects : value),
      truthy client_provider = true ->
      fetch_attr client_provider "keystone" = Returns keystone ->
      truthy keystone = true ->
      fetch_attr keystone "tenants" = Returns tenants ->
      truthy tenants = true ->
      fetch_attr keystone "projects" = Returns projects ->
      truthy projects = true ->
      exists r,
        lookup_resource "tenant" = Ok r /\
        find_resource_manager client_provider "tenant" (resource_manager_path r)
          = ([EGetattr "keystone"; EGetattr "tenants"], Ok tenants)).
Proof.
  split.
  - intros. now apply find_resource_manager_first.
  - intros cp ks tenants projects Hcp Hks Hkst Hten Htent _ _.
    eexists. split; [reflexivity | ].
    cbn [resource_manager_path].
    apply find_resource_manager_first; [ | assumption].
    cbn [_get_nested_attr]. rewrite Hcp. cbn [negb].
    rewrite (bind_ok _ _ _ _ (getattr_default_returns _ _ _ _ Hks)).
    cbn [_get_nested_attr]. rewrite Hkst. cbn [negb].
    rewrite (bind_ok _ _ _ _ (getattr_default_returns _ _ _ _ Hten)).
    reflexivity.
Qed.

Lemma first_resolving_path_wins_witness :
  find_resource_manager
    (keystone_provider (manager (Returns (VList [])))
                       (manager (Raises (ClientError "projects"))))
    "tenant" [["keystone"; "tenants"]; ["keystone"; "projects"]]
  = ([EGetattr "keystone"; EGetattr "tenants"],
     Ok (manager (Returns (VList [])))) /\
  exists r,
    lookup_resource "tenant" = Ok r /\
    find_resource_manager
      (keystone_provider (manager (Returns (VList [])))
                         (manager (Raises (ClientError "projects"))))
      "tenant" (resource_manager_path r)
    = ([EGetattr "keystone"; EGetattr "tenants"],
       Ok (manager (Returns (VList [])))).
Proof.
  split.
  - apply (proj1 first_resolving_path_wins); reflexivity.
  - apply (proj2 first_resolving_path_wins
             (keystone_provider (manager (Returns (VList [])))
                                (manager (Raises (ClientError "projects"))))
             (VObj [("tenants", manager (Returns (VList [])));
                    ("projects", manager (Raises (ClientError "projects")))]
                   [] true)
             (manager (Returns (VList [])))
             (manager (Raises (ClientError "projects"))));
      reflexivity.
Defined.

Lemma fst_getattr_default (x : value) (name : string) (default : value) :
  fst (getattr_default x name default) = [EGetattr name].
Proof.
  unfold getattr_default.
  destruct (fetch_attr x name) as [v | []]; reflexivity.
Qed.

(** The attribute-path walk fetches attributes and calls nothing. *)
Lemma _get_nested_attr_no_call (attr_path : list string) :
  forall obj, existsb is_call (fst (_get_nested_attr obj attr_path)) = false.
Proof.
  induction attr_path as [| attr_name rest IH]; intros obj;
    cbn [_get_nested_attr]; [reflexivity | ].
  destruct (truthy obj); cbn [negb]; [ | reflexivity].
  rewrite fst_bind, fst_getattr_default. cbn [app existsb is_call orb].
  destruct (snd (getattr_default obj attr_name VNone)) as [v | e];
    [ | reflexivity].
  destruct rest as [| next rest']; [reflexivity | apply IH].
Qed.

Lemma find_resource_manager_no_call (client_provider : value)
    (resource_name : string) (paths : list (list string)) :
  existsb is_call
    (fst (find_resource_manager client_provider resource_name paths)) = false.
Proof.
  induction paths as [| path rest IH]; cbn [find_resource_manager];
    [reflexivity | ].
  rewrite fst_bind, existsb_app, _get_nested_attr_no_call. cbn [orb].
  destruct (snd (_get_nested_attr client_provider path)) as [v | e];
    [ | reflexivity].
  destruct (truthy v); [reflexivity | apply IH].
Qed.

Lemma find_resource_manager_exhausted (client_provider : value)
    (resource_name : string) (paths : list (list string)) :
  Forall (unresolved client_provider) paths ->
  snd (find_resource_manager client_provider resource_name paths)
    = Err (Exception (not_found_message resource_name)).
Proof.
  induction 1 as [| path rest [v [Hv Hfalse]] _ IH];
    cbn [find_resource_manager]; [reflexivity | ].
  rewrite snd_bind, Hv, Hfalse. exact IH.
Qed.

(** C4: for a known kind, when every candidate path of its schema is
    unresolved on the provider, extraction raises the exception whose
    message names the kind, and nothing has been called (so no list()). *)
Theorem no_manager_raises_without_listing (client_provider : value)
    (resource_name : string) (r : resource) :
  lookup_resource resource_name = Ok r ->
  Forall (unresolved client_provider) (resource_manager_path r) ->
  snd (get_info_from_os_resource_manager client_provider resource_name)
    = Err (Exception ("Resource manager for " ++ resource_name ++
                      " could not be found by openstack client provider")) /\
  existsb is_call
    (fst (get_info_from_os_resource_manager client_provider resource_name))
    = false.
Proof.
  intros Hlookup Hnone. unfold get_info_from_os_resource_manager.
  rewrite Hlookup, bind_lift_ok.
  pose proof (find_resource_manager_exhausted _ resource_name _ Hnone) as Hfind.
  split.
  - rewrite snd_bind, Hfind. reflexivity.
  - rewrite fst_bind, Hfind, app_nil_r. apply find_resource_manager_no_call.
Qed.

Lemma no_manager_raises_without_listing_witness :
  snd (get_info_from_os_resource_manager empty_provider "tenant")
    = Err (Exception ("Resource manager for " ++ "tenant" ++
                      " could not be found by openstack client provider")) /\
  existsb is_call
    (fst (get_info_from_os_resource_manager empty_provider "tenant")) = false.
Proof.
  apply (no_manager_raises_without_listing empty_provider "tenant"
           {| attr_names := [("id", ["id"]); ("enabled_flag", ["enabled"])];
              resource_manager_path := [["keystone"; "tenants"];
                                        ["keystone"; "projects"]] |}).
  - reflexivity.
  - repeat constructor; exists VNone; split; reflexivity.
Defined.

(** ** Looking up the schema *)

Lemma lookup_resource_unknown (resource_name : string) :
  ~ In resource_name resource_kinds ->
  lookup_resource resource_name = Err (KeyError resource_name).
Proof.
  intros Hnot. unfold lookup_resource, collected_components_attrs.
  cbn [assoc].
  repeat match goal with
  | |- context [String.eqb ?k resource_name] =>
      destruct (String.eqb_spec k resource_name) as [Heq | _];
      [exfalso; apply Hnot; rewrite <- Heq; cbn; tauto | ]
  end.
  reflexivity.
Qed.

(** C5: a name outside {vm, flavor, tenant, image, volume} makes the lookup,
    and with it the extraction on any provider, fail with KeyError before
    anything is asked of the provider; a name inside gives the entry of the
    table under that name, with attributes and candidate paths. *)
Theorem lookup_resource_by_kind (resource_name : string) :
  (~ In resource_name resource_kinds ->
   lookup_resource resource_name = Err (KeyError resource_name) /\
   forall client_provider,
     get_info_from_os_resource_manager client_provider resource_name
       = ([], Err (KeyError resource_name))) /\
  (In resource_name resource_kinds ->
   exists r,
     lookup_resource resource_name = Ok r /\
     In (resource_name, r) collected_components_attrs /\
     attr_names r <> [] /\ resource_manager_path r <> []).
Proof.
  split.
  - intros Hnot. pose proof (lookup_resource_unknown _ Hnot) as Hl.
    split; [exact Hl | ]. intros cp.
    unfold get_info_from_os_resource_manager. rewrite Hl. reflexivity.
  - intros Hin. cbn in Hin.
    repeat (destruct Hin as [<- | Hin];
            [eexists; split; [reflexivity | ];
             split; [cbn; tauto | split; discriminate] | ]).
    contradiction.
Qed.

Lemma lookup_resource_by_kind_witness :
  (lookup_resource "network" = Err (KeyError "network") /\
   forall client_provider,
     get_info_from_os_resource_manager client_provider "network"
       = ([], Err (KeyError "network"))) /\
  (exists r,
     lookup_resource "volume" = Ok r /\
     In ("volume", r) collected_components_attrs /\
     attr_names r <> [] /\ resource_manager_path r <> []).
Proof.
  split.
  - apply (proj1 (lookup_resource_by_kind "network")).
    cbn. intros H. repeat (destruct H as [H | H]; [discriminate H | ]).
    exact H.
  - apply (proj2 (lookup_resource_by_kind "volume")). cbn. tauto.
Defined.

(** ** A failing list() *)

(** C6: when the manager that was found has a [list] whose call raises,
    extraction ends with that very exception right after the call: the
    result carries no record, and no instance was touched. *)
Theorem list_failure_propagates (client_provider : value)
    (resource_name : string) (r : resource) (t : list event) (mgr : value)
    (e : exn) :
  lookup_resource resource_name = Ok r ->
  find_resource_manager client_provider resource_name
    (resource_manager_path r) = (t, Ok mgr) ->
  fetch_attr mgr "list" = Returns (VFun (Raises e)) ->
  get_info_from_os_resource_manager client_provider resource_name
    = (t ++ [EGetattr "list"; ECall "list"], Err e).
Proof.
  intros Hlookup Hfind Hlist. unfold get_info_from_os_resource_manager.
  rewrite Hlookup, bind_lift_ok, (bind_ok _ _ _ _ Hfind).
  unfold call_method, getattr. rewrite Hlist. reflexivity.
Qed.

Lemma list_failure_propagates_witness :
  get_info_from_os_resource_manager
    (VObj [("cinder",
            VObj [("volumes",
                   manager (Raises (ClientError "connection refused")))]
                 [] true)] [] true)
    "volume"
  = ([EGetattr "cinder"; EGetattr "volumes"] ++
     [EGetattr "list"; ECall "list"],
     Err (ClientError "connection refused")).
Proof.
  apply (list_failure_propagates _ "volume"
           {| attr_names := [
                ("id", ["id"]);
                ("availability_zone", ["availability_zone"]);
                ("encrypted_flag", ["encrypted"]);
                ("bootable_flag", ["bootable"]);
                ("status", ["status"]);
                ("volume_type", ["volume_type"]);
                ("size", ["size"]);
                ("host", ["os-vol-host-attr:host"]);
                ("snapshot_id", ["snapshot_id"]);
                ("attachments", ["attachments"]);
                ("tenant_id", ["os-vol-tenant-attr:tenant_id"])];
              resource_manager_path := [["cinder"; "volumes"]] |}
           [EGetattr "cinder"; EGetattr "volumes"]
           (manager (Raises (ClientError "connection refused"))));
    reflexivity.
Defined.

(** ** Absent keys *)

Lemma walk_on_missing_key (key_path : list string) :
  forall d, path_misses_key d key_path = true ->
            _get_value_from_nested_dict (VDict d) key_path = Ok VNone.
Proof.
  induction key_path as [| key rest IH]; intros d; cbn [path_misses_key];
    [discriminate | ].
  cbn [_get_value_from_nested_dict]. unfold dict_get.
  destruct (assoc d key) as [[]| ]; try discriminate;
    [apply IH | reflexivity].
Qed.

Example absent_status_record :
  snd (fill_inst_details (plain_instance [("id", VStr "i-1")])
         [("status", ["status"]); ("id", ["id"])] [])
  = Ok [("status", VNone); ("id", VStr "i-1")].
Proof. reflexivity. Qed.

(** ** Absent attributes *)

Lemma _get_nested_attr_falsy (obj : value) (attr_path : list string) :
  truthy obj = false -> _get_nested_attr obj attr_path = ([], Ok VNone).
Proof.
  intros H. destruct attr_path; cbn [_get_nested_attr];
    [ | rewrite H]; reflexivity.
Qed.






(** ** Paths that end on a dict *)

Lemma walk_ending_in_dict (key_path : list string) :
  forall d, path_ends_in_dict d key_path = true ->
            _get_value_from_nested_dict (VDict d) key_path = Err IndexError.
Proof.
  induction key_path as [| key rest IH]; intros d; [reflexivity | ].
  cbn [path_ends_in_dict _get_value_from_nested_dict]. unfold dict_get.
  destruct (assoc d key) as [[]| ]; try discriminate. apply IH.
Qed.

Lemma walk_not_ending_in_dict (key_path : list string) :
  forall d, path_ends_in_dict d key_path = false ->
            exists v, _get_value_from_nested_dict (VDict d) key_path = Ok v /\
                      is_dict v = false.
Proof.
  induction key_path as [| key rest IH]; intros d; [discriminate | ].
  cbn [path_ends_in_dict _get_value_from_nested_dict]. unfold dict_get.
  destruct (assoc d key) as [[]| ]; cbn [is_dict];
    try (intros _; eexists; split; reflexivity).
  apply IH.
Qed.

(** C9: when the key path, followed from the mapping, ends on a mapping
    (the empty path on any mapping included), the walk raises IndexError;
    it raises in no other case, and what it returns is never a mapping; in
    the inner loop of the extraction the IndexError ends the record. *)
Theorem key_walk_short_path_raises :
  (forall d : dict, _get_value_from_nested_dict (VDict d) [] = Err IndexError) /\
  (forall (d : dict) (key_path : list string),
      path_ends_in_dict d key_path = true ->
      _get_value_from_nested_dict (VDict d) key_path = Err IndexError) /\
  (forall (d : dict) (key_path : list string) (e : exn),
      _get_value_from_nested_dict (VDict d) key_path = Err e ->
      e = IndexError /\ path_ends_in_dict d key_path = true) /\
  (forall (d : dict) (key_path : list string) (v : value),
      _get_value_from_nested_dict (VDict d) key_path = Ok v ->
      is_dict v = false /\ path_ends_in_dict d key_path = false) /\
  (forall (inst : value) (d inst_details : dict) (attr_name : string)
          (attr_path : list string) (rest : list (string * list string)),
      snd (instance_dict inst) = Ok (VDict d) ->
      path_ends_in_dict d attr_path = true ->
      snd (fill_inst_details inst ((attr_name, attr_path) :: rest)
             inst_details) = Err IndexError).
Proof.
  split; [reflexivity | split; [ | split; [ | split]]].
  - intros d key_path. apply walk_ending_in_dict.
  - intros d key_path e Hwalk.
    destruct (path_ends_in_dict d key_path) eqn:Hends.
    + rewrite (walk_ending_in_dict _ _ Hends) in Hwalk.
      split; [congruence | reflexivity].
    + destruct (walk_not_ending_in_dict _ _ Hends) as [v [Hv _]].
      congruence.
  - intros d key_path v Hwalk.
    destruct (path_ends_in_dict d key_path) eqn:Hends.
    + rewrite (walk_ending_in_dict _ _ Hends) in Hwalk. discriminate.
    + destruct (walk_not_ending_in_dict _ _ Hends) as [v' [Hv' Hnd]].
      split; [congruence | reflexivity].
  - intros inst d inst_details attr_name attr_path rest Hd Hends.
    rewrite (fill_inst_details_record_of _ _ _ Hd). cbn [record_of].
    now rewrite (walk_ending_in_dict _ _ Hends).
Qed.

Lemma key_walk_short_path_raises_witness :
  _get_value_from_nested_dict (VDict flavor_instance) ["flavor"]
    = Err IndexError /\
  (IndexError = IndexError /\
   path_ends_in_dict [("image", VDict [])] ["image"] = true) /\
  (is_dict (VInt 42) = false /\
   path_ends_in_dict flavor_instance ["flavor"; "id"] = false) /\
  snd (fill_inst_details (plain_instance [("status", VDict [])])
         [("status", ["status"]); ("id", ["id"])] []) = Err IndexError.
Proof.
  split; [ | split; [ | split]].
  - apply (proj1 (proj2 key_walk_short_path_raises)). reflexivity.
  - apply (proj1 (proj2 (proj2 key_walk_short_path_raises))
             [("image", VDict [])] ["image"]).
    reflexivity.
  - apply (proj1 (proj2 (proj2 (proj2 key_walk_short_path_raises)))
             flavor_instance ["flavor"; "id"]).
    reflexivity.
  - apply (proj2 (proj2 (proj2 (proj2 key_walk_short_path_raises)))
             (plain_instance [("status", VDict [])]) [("status", VDict [])]);
      reflexivity.
Defined.

(** ** Truthiness decides *)

(** C10: zero, the empty string and the empty list or dict are falsy; the
    walk gives None, fetching nothing, from any falsy object, so a falsy
    attribute met before the end of the path makes the whole walk None; and
    the loop over the candidates, given a falsy value by one path (the
    terminal attribute itself, when it is falsy), goes on with the next. *)
Theorem manager_resolution_uses_truthiness :
  (truthy (VInt 0) = false /\ truthy (VStr "") = false /\
   truthy (VList []) = false /\ truthy (VDict []) = false) /\
  (forall (obj : value) (attr_path : list string),
      truthy obj = false ->
      _get_nested_attr obj attr_path = ([], Ok VNone)) /\
  (forall (obj v : value) (attr_name next : string) (rest : list string),
      truthy obj = true ->
      fetch_attr obj attr_name = Returns v ->
      truthy v = false ->
      _get_nested_attr obj (attr_name :: next :: rest)
        = ([EGetattr attr_name], Ok VNone)) /\
  (forall (obj v : value) (attr_name : string),
      truthy obj = true ->
      fetch_attr obj attr_name = Returns v ->
      _get_nested_attr obj [attr_name] = ([EGetattr attr_name], Ok v)) /\
  (forall (client_provider v : value) (resource_name : string)
          (path : list string) (later : list (list string)) (t : list event),
      _get_nested_attr client_provider path = (t, Ok v) ->
      truthy v = false ->
      find_resource_manager client_provider resource_name (path :: later)
        = (t ++ fst (find_resource_manager client_provider resource_name later),
           snd (find_resource_manager client_provider resource_name later))).
Proof.
  split; [repeat split | split; [ | split; [ | split]]].
  - intros obj attr_path. apply _get_nested_attr_falsy.
  - intros obj v attr_name next rest Hobj Hfetch Hv.
    cbn [_get_nested_attr]. rewrite Hobj. cbn [negb].
    rewrite (bind_ok _ _ _ _ (getattr_default_returns _ _ _ _ Hfetch)).
    rewrite Hv. reflexivity.
  - intros obj v attr_name Hobj Hfetch.
    cbn [_get_nested_attr]. rewrite Hobj. cbn [negb].
    rewrite (bind_ok _ _ _ _ (getattr_default_returns _ _ _ _ Hfetch)).
    reflexivity.
  - intros cp v resource_name path later t Hwalk Hfalse.
    exact (find_resource_manager_skip _ _ _ _ _ _ Hwalk Hfalse).
Qed.

Lemma manager_resolution_uses_truthiness_witness :
  _get_nested_attr (VStr "") ["keystone"; "tenants"] = ([], Ok VNone) /\
  _get_nested_attr (VObj [("keystone", VInt 0)] [] true)
    ["keystone"; "tenants"] = ([EGetattr "keystone"], Ok VNone) /\
  _get_nested_attr (VObj [("tenants", VList [])] [] true) ["tenants"]
    = ([EGetattr "tenants"], Ok (VList [])) /\
  find_resource_manager
    (keystone_provider (VList []) (manager (Returns (VList []))))
    "tenant" [["keystone"; "tenants"]; ["keystone"; "projects"]]
  = ([EGetattr "keystone"; EGetattr "tenants"] ++
     fst (find_resource_manager
            (keystone_provider (VList []) (manager (Returns (VList []))))
            "tenant" [["keystone"; "projects"]]),
     snd (find_resource_manager
            (keystone_provider (VList []) (manager (Returns (VList []))))
            "tenant" [["keystone"; "projects"]])).
Proof.
  split; [ | split; [ | split]].
  - apply (proj1 (proj2 manager_resolution_uses_truthiness)). reflexivity.
  - apply (proj1 (proj2 (proj2 manager_resolution_uses_truthiness))
             (VObj [("keystone", VInt 0)] [] true) (VInt 0));
      reflexivity.
  - apply (proj1 (proj2 (proj2 (proj2 manager_resolution_uses_truthiness)))
             (VObj [("tenants", VList [])] [] true) (VList []));
      reflexivity.
  - apply (proj2 (proj2 (proj2 (proj2 manager_resolution_uses_truthiness)))
             (keystone_provider (VList []) (manager (Returns (VList []))))
             (VList []));
      reflexivity.
Defined.

(** With a falsy [tenants] the manager used is [projects]. *)
Example falsy_tenants_falls_back_to_projects :
  find_resource_manager
    (keystone_provider (VList []) (manager (Returns (VList []))))
    "tenant" [["keystone"; "tenants"]; ["keystone"; "projects"]]
  = ([EGetattr "keystone"; EGetattr "tenants";
      EGetattr "keystone"; EGetattr "projects"],
     Ok (manager (Returns (VList [])))).
Proof. reflexivity. Qed.

(** ** More on the effect type *)

Lemma bind_ret_l {A B : Type} (a : A) (f : A -> M B) : bind (ret a) f = f a.
Proof.
  unfold ret. simpl. destruct (f a); reflexivity.
Qed.

Lemma bind_assoc {A B C : Type} (m : M A) (f : A -> M B) (g : B -> M C) :
  bind (bind m f) g = bind m (fun a => bind (f a) g).
Proof.
  destruct m as [t [a | e]]; simpl; [ | reflexivity].
  destruct (f a) as [t' [b | e]]; simpl; [ | reflexivity].
  destruct (g b) as [t'' r]. rewrite app_assoc. reflexivity.
Qed.

(** ** Order and shape of the extracted records *)

Lemma collect_resource_info_ok (attrs : list (string * list string))
    (instances : list value) :
  forall resource_info recs,
    snd (collect_resource_info instances attrs resource_info) = Ok recs <->
    exists new,
      recs = resource_info ++ new /\
      Forall2 (fun inst r => snd (fill_inst_details inst attrs []) = Ok r)
              instances new.
Proof.
  induction instances as [| inst rest IH]; intros resource_info recs;
    cbn [collect_resource_info].
  - cbn [ret snd]. split.
    + intros [= <-]. exists []. rewrite app_nil_r. split; constructor.
    + intros [new [-> Hall]]. inversion Hall. now rewrite app_nil_r.
  - rewrite snd_bind.
    destruct (snd (fill_inst_details inst attrs [])) as [r | e] eqn:Hfill.
    + rewrite IH. split.
      * intros [new [-> Hall]]. exists (r :: new).
        rewrite <- app_assoc. split; [reflexivity | now constructor].
      * intros [new [-> Hall]]. inversion Hall as [| ? r' ? new' Hr Hrest];
          subst. assert (r' = r) as -> by congruence.
        exists new'. rewrite <- app_assoc. split; [reflexivity | assumption].
    + split; [discriminate | ].
      intros [new [_ Hall]]. inversion Hall; congruence.
Qed.

(** X1: when the manager found lists the instances, extraction succeeds with
    [recs] exactly when [recs] holds, instance by instance and in the order
    of the listing, the record of each instance. *)
Theorem extraction_keeps_listing_order (client_provider mgr : value)
    (resource_name : string) (r : resource) (instances : list value)
    (recs : list dict) :
  lookup_resource resource_name = Ok r ->
  snd (find_resource_manager client_provider resource_name
         (resource_manager_path r)) = Ok mgr ->
  snd (call_method mgr "list") = Ok (VList instances) ->
  (snd (get_info_from_os_resource_manager client_provider resource_name)
     = Ok recs <->
   Forall2 (fun inst rec =>
              snd (fill_inst_details inst (attr_names r) []) = Ok rec)
           instances recs).
Proof.
  intros Hlookup Hmgr Hlist. unfold get_info_from_os_resource_manager.
  rewrite Hlookup, bind_lift_ok.
  rewrite snd_bind, Hmgr. cbv beta iota.
  rewrite snd_bind, Hlist. cbv beta iota.
  rewrite snd_bind. cbn [iterate ret snd].
  rewrite collect_resource_info_ok. cbn [app]. split.
  - intros [new [-> Hall]]. exact Hall.
  - intros Hall. now exists recs.
Qed.

Lemma extraction_keeps_listing_order_witness :
  snd (get_info_from_os_resource_manager
         (keystone_provider
            (manager (Returns (VList [
               plain_instance [("id", VStr "t2"); ("enabled", VBool true)];
               plain_instance [("id", VStr "t1"); ("enabled", VBool false)]])))
            VNone)
         "tenant")
  = Ok [[("id", VStr "t2"); ("enabled_flag", VBool true)];
        [("id", VStr "t1"); ("enabled_flag", VBool false)]].
Proof.
  apply (extraction_keeps_listing_order _
           (manager (Returns (VList [
              plain_instance [("id", VStr "t2"); ("enabled", VBool true)];
              plain_instance [("id", VStr "t1"); ("enabled", VBool false)]])))
           "tenant"
           {| attr_names := [("id", ["id"]); ("enabled_flag", ["enabled"])];
              resource_manager_path := [["keystone"; "tenants"];
                                        ["keystone"; "projects"]] |}
           [plain_instance [("id", VStr "t2"); ("enabled", VBool true)];
            plain_instance [("id", VStr "t1"); ("enabled", VBool false)]]);
    try reflexivity.
  repeat constructor.
Defined.

(** X2: an instance whose record fails makes the whole loop fail with that
    exception, whatever was collected before it and whatever follows. *)
Theorem failing_instance_aborts (attrs : list (string * list string))
    (before after : list value) (inst : value) (collected : list dict)
    (resource_info : list dict) (e : exn) :
  Forall2 (fun i r => snd (fill_inst_details i attrs []) = Ok r)
          before collected ->
  snd (fill_inst_details inst attrs []) = Err e ->
  snd (collect_resource_info (before ++ inst :: after) attrs resource_info)
    = Err e.
Proof.
  intros Hbefore Hfail. revert resource_info.
  induction Hbefore as [| i r before' collected' Hi _ IH]; intros resource_info;
    cbn [app collect_resource_info]; rewrite snd_bind.
  - rewrite Hfail. reflexivity.
  - rewrite Hi. apply IH.
Qed.

Lemma failing_instance_aborts_witness :
  snd (collect_resource_info
         ([plain_instance [("id", VStr "t1")]] ++
          VDict [("id", VStr "t2")] :: [plain_instance [("id", VStr "t3")]])
         [("id", ["id"])] [])
  = Err (AttributeError "__dict__").
Proof.
  apply (failing_instance_aborts [("id", ["id"])]
           [plain_instance [("id", VStr "t1")]]
           [plain_instance [("id", VStr "t3")]]
           (VDict [("id", VStr "t2")])
           [[("id", VStr "t1")]]).
  - repeat constructor.
  - reflexivity.
Defined.

Lemma dict_set_fresh (d : dict) (k : string) (v : value) :
  ~ In k (map fst d) -> dict_set d k v = d ++ [(k, v)].
Proof.
  induction d as [| [k' v'] rest IH]; cbn [dict_set map fst In app];
    intros Hfresh; [reflexivity | ].
  destruct (String.eqb_spec k' k) as [-> | _]; [tauto | ].
  rewrite IH; [reflexivity | tauto].
Qed.

Lemma lookup_resource_in_table (resource_name : string) (r : resource) :
  lookup_resource resource_name = Ok r ->
  In (resource_name, r) collected_components_attrs.
Proof.
  unfold lookup_resource.
  induction collected_components_attrs as [| [k r'] rest IH]; cbn [assoc];
    [discriminate | ].
  destruct (String.eqb_spec k resource_name) as [-> | _].
  - intros [= ->]. now left.
  - intros H. right. now apply IH.
Qed.

Lemma table_well_formed (resource_name : string) (r : resource) :
  lookup_resource resource_name = Ok r -> well_formed r.
Proof.
  intros H. apply lookup_resource_in_table in H.
  assert (Forall (fun nr : string * resource => well_formed (snd nr))
                 collected_components_attrs) as Hall.
  { unfold collected_components_attrs.
    repeat (apply Forall_cons; [ | ]); try apply Forall_nil;
      (split; cbn [snd attr_names map fst];
       [ repeat (apply NoDup_cons;
                 [cbn [In]; intuition discriminate | ]); apply NoDup_nil
       | repeat (apply Forall_cons; [discriminate | ]); apply Forall_nil ]). }
  rewrite Forall_forall in Hall. exact (Hall _ H).
Qed.

Lemma record_of_keys (obj_dict : value) (attrs : list (string * list string)) :
  forall inst_details rec,
    NoDup (map fst inst_details ++ map fst attrs) ->
    record_of obj_dict attrs inst_details = Ok rec ->
    map fst rec = map fst inst_details ++ map fst attrs.
Proof.
  induction attrs as [| [attr_name attr_path] rest IH];
    intros inst_details rec Hnodup; cbn [record_of map fst].
  - intros [= <-]. now rewrite app_nil_r.
  - destruct (_get_value_from_nested_dict obj_dict attr_path) as [v | e];
      [ | discriminate].
    pose proof (NoDup_remove_2 _ _ _ Hnodup) as Hfresh.
    rewrite dict_set_fresh by (intros Hin; apply Hfresh, in_or_app; now left).
    intros Hrec. apply IH in Hrec.
    + rewrite Hrec, map_app, <- app_assoc. reflexivity.
    + rewrite map_app, <- app_assoc. exact Hnodup.
Qed.

Lemma fill_inst_details_no_dict (inst : value) (e : exn)
    (attr : string * list string) (rest : list (string * list string))
    (inst_details : dict) :
  snd (instance_dict inst) = Err e ->
  snd (fill_inst_details inst (attr :: rest) inst_details) = Err e.
Proof.
  intros H. destruct attr as [attr_name attr_path].
  cbn [fill_inst_details]. rewrite snd_bind, H. reflexivity.
Qed.

(** X3: for every kind of the table, the keys of a record that is built
    are the attribute names of the kind: every name is a key, every key is
    a name, and no key comes twice. *)
Theorem record_keys_are_attr_names (resource_name : string) (r : resource)
    (inst : value) (rec : dict) :
  lookup_resource resource_name = Ok r ->
  snd (fill_inst_details inst (attr_names r) []) = Ok rec ->
  NoDup (map fst rec) /\
  forall key, In key (map fst rec) <-> In key (map fst (attr_names r)).
Proof.
  intros Hlookup Hfill.
  destruct (table_well_formed _ _ Hlookup) as [Hnodup _].
  assert (map fst rec = map fst (attr_names r)) as ->; [ | now split].
  destruct (snd (instance_dict inst)) as [obj_dict | e] eqn:Hd.
  - rewrite (fill_inst_details_record_of _ _ _ Hd) in Hfill.
    now apply record_of_keys in Hfill.
  - destruct (attr_names r) as [| attr rest].
    + cbn in Hfill. injection Hfill as <-. reflexivity.
    + rewrite (fill_inst_details_no_dict _ _ _ _ _ Hd) in Hfill.
      discriminate.
Qed.

Lemma record_keys_are_attr_names_witness :
  NoDup (map fst [("id", VStr "f1"); ("ram", VInt 512); ("vcpus", VInt 1);
                  ("ephemeral", VNone); ("disk", VInt 1); ("swap", VStr "")]) /\
  forall key,
    In key (map fst [("id", VStr "f1"); ("ram", VInt 512); ("vcpus", VInt 1);
                     ("ephemeral", VNone); ("disk", VInt 1);
                     ("swap", VStr "")]) <->
    In key (map fst [("id", ["id"]); ("ram", ["ram"]); ("vcpus", ["vcpus"]);
                     ("ephemeral", ["OS-FLV-EXT-DATA:ephemeral"]);
                     ("disk", ["disk"]); ("swap", ["swap"])]).
Proof.
  apply (record_keys_are_attr_names "flavor"
           {| attr_names := [
                ("id", ["id"]);
                ("ram", ["ram"]);
                ("vcpus", ["vcpus"]);
                ("ephemeral", ["OS-FLV-EXT-DATA:ephemeral"]);
                ("disk", ["disk"]);
                ("swap", ["swap"])];
              resource_manager_path := [["nova"; "flavors"]] |}
           (instance_with_to_dict
              [("id", VStr "f1"); ("ram", VInt 512); ("vcpus", VInt 1);
               ("disk", VInt 1); ("swap", VStr "")]));
    reflexivity.
Defined.

Lemma walk_never_returns_dict (key_path : list string) :
  forall obj_dict v,
    _get_value_from_nested_dict obj_dict key_path = Ok v ->
    is_dict v = false.
Proof.
  intros obj_dict v H.
  destruct obj_dict as [| | | | | d | |];
    try (destruct key_path; cbn in H; discriminate).
  - destruct (path_ends_in_dict d key_path) eqn:Hends.
    + rewrite (walk_ending_in_dict _ _ Hends) in H. discriminate.
    + destruct (walk_not_ending_in_dict _ _ Hends) as [v' [Hv' Hnd]].
      congruence.
  - destruct key_path; cbn [_get_value_from_nested_dict] in H;
      unfold get_on_non_dict in H;
      destruct (fetch_attr _ "get"); discriminate.
Qed.

Lemma dict_set_not_dict (d : dict) (k : string) (v : value) :
  Forall (fun kv : string * value => is_dict (snd kv) = false) d ->
  is_dict v = false ->
  Forall (fun kv : string * value => is_dict (snd kv) = false)
         (dict_set d k v).
Proof.
  intros Hd Hv. induction Hd as [| [k' v'] rest Hkv Hrest IH]; cbn [dict_set].
  - repeat constructor. exact Hv.
  - destruct (String.eqb k' k); constructor;
      first [exact Hv | exact Hkv | exact IH | exact Hrest].
Qed.

Lemma record_of_not_dict (obj_dict : value)
    (attrs : list (string * list string)) :
  forall inst_details rec,
    Forall (fun kv : string * value => is_dict (snd kv) = false) inst_details ->
    record_of obj_dict attrs inst_details = Ok rec ->
    Forall (fun kv : string * value => is_dict (snd kv) = false) rec.
Proof.
  induction attrs as [| [attr_name attr_path] rest IH];
    intros inst_details rec Hacc; cbn [record_of].
  - now intros [= <-].
  - destruct (_get_value_from_nested_dict obj_dict attr_path) as [v | e] eqn:Hv;
      [ | discriminate].
    apply IH, dict_set_not_dict; [exact Hacc | ].
    exact (walk_never_returns_dict _ _ _ Hv).
Qed.

(** X4: the records are flat: no value of a record that is built is a
    mapping, whatever the attributes and the instance. *)
Theorem record_values_are_not_dicts (inst : value)
    (attrs : list (string * list string)) (rec : dict) :
  snd (fill_inst_details inst attrs []) = Ok rec ->
  Forall (fun kv : string * value => is_dict (snd kv) = false) rec.
Proof.
  intros Hfill.
  destruct (snd (instance_dict inst)) as [obj_dict | e] eqn:Hd.
  - rewrite (fill_inst_details_record_of _ _ _ Hd) in Hfill.
    now apply record_of_not_dict in Hfill.
  - destruct attrs as [| attr rest].
    + cbn in Hfill. injection Hfill as <-. constructor.
    + rewrite (fill_inst_details_no_dict _ _ _ _ _ Hd) in Hfill.
      discriminate.
Qed.

Lemma record_values_are_not_dicts_witness :
  Forall (fun kv : string * value => is_dict (snd kv) = false) vm_record.
Proof.
  apply (record_values_are_not_dicts (plain_instance vm_instance)
           [("id", ["id"]); ("status", ["status"]);
            ("tenant_id", ["tenant_id"]); ("host_id", ["hostId"]);
            ("created_at", ["created"]);
            ("power_state", ["OS-EXT-STS:power_state"]);
            ("flavor_id", ["flavor"; "id"]); ("image_id", ["image"; "id"])]).
  reflexivity.
Defined.

Lemma flat_dict_get (d : dict) (key : string) :
  flat d -> is_dict (dict_get d key) = false.
Proof.
  intros Hflat. unfold dict_get.
  destruct (assoc d key) as [v | ] eqn:Hv; [exact (Hflat _ _ Hv) | reflexivity].
Qed.

Lemma record_of_flat (d : dict) (attrs : list (string * list string)) :
  flat d ->
  Forall (fun np : string * list string => snd np <> []) attrs ->
  forall inst_details,
    NoDup (map fst inst_details ++ map fst attrs) ->
    record_of (VDict d) attrs inst_details
    = Ok (inst_details ++
          map (fun np => (fst np, dict_get d (hd "" (snd np)))) attrs).
Proof.
  intros Hflat Hpaths.
  induction Hpaths as [| [attr_name attr_path] rest Hpath _ IH];
    intros inst_details Hnodup; cbn [record_of map fst snd].
  - now rewrite app_nil_r.
  - destruct attr_path as [| key more]; [now contradiction Hpath | ].
    rewrite (walk_stops_at_non_dict _ _ _ (flat_dict_get _ key Hflat)).
    pose proof (NoDup_remove_2 _ _ _ Hnodup) as Hfresh.
    rewrite dict_set_fresh by (intros Hin; apply Hfresh, in_or_app; now left).
    rewrite IH.
    + rewrite <- app_assoc. reflexivity.
    + rewrite map_app, <- app_assoc. exact Hnodup.
Qed.

(** X5: for every kind of the table, an instance whose mapping has no
    nested mapping always gets its record: each attribute is the value found
    under the first key of its path, None when the key is absent. *)
Theorem flat_instance_record (resource_name : string) (r : resource)
    (inst : value) (d : dict) :
  lookup_resource resource_name = Ok r ->
  snd (instance_dict inst) = Ok (VDict d) ->
  flat d ->
  snd (fill_inst_details inst (attr_names r) [])
  = Ok (map (fun np => (fst np, dict_get d (hd "" (snd np)))) (attr_names r)).
Proof.
  intros Hlookup Hd Hflat.
  destruct (table_well_formed _ _ Hlookup) as [Hnodup Hpaths].
  rewrite (fill_inst_details_record_of _ _ _ Hd).
  now rewrite (record_of_flat _ _ Hflat Hpaths []).
Qed.

Lemma flat_instance_record_witness :
  snd (fill_inst_details
         (plain_instance [("id", VStr "t1"); ("name", VStr "admin")])
         [("id", ["id"]); ("enabled_flag", ["enabled"])] [])
  = Ok [("id", VStr "t1"); ("enabled_flag", VNone)].
Proof.
  apply (flat_instance_record "tenant"
           {| attr_names := [("id", ["id"]); ("enabled_flag", ["enabled"])];
              resource_manager_path := [["keystone"; "tenants"];
                                        ["keystone"; "projects"]] |}
           (plain_instance [("id", VStr "t1"); ("name", VStr "admin")])
           [("id", VStr "t1"); ("name", VStr "admin")]);
    try reflexivity.
  intros key v. cbn [assoc].
  repeat (destruct (String.eqb _ key); [intros [= <-]; reflexivity | ]).
  discriminate.
Defined.

(** ** Longer paths *)

Lemma walk_overlong_dict (key_path extra : list string) :
  forall d v,
    _get_value_from_nested_dict (VDict d) key_path = Ok v ->
    _get_value_from_nested_dict (VDict d) (key_path ++ extra) = Ok v.
Proof.
  induction key_path as [| key rest IH]; intros d v; [discriminate | ].
  cbn [app _get_value_from_nested_dict].
  destruct (dict_get d key) as [| | | | | d' | |]; cbn [is_dict];
    try exact (fun H => H).
  apply IH.
Qed.

(** X6: segments added at the end of a key path on which the walk returns
    change nothing: the walk returns the same value. *)
Theorem key_walk_ignores_extra_segments (obj_dict v : value)
    (key_path extra : list string) :
  _get_value_from_nested_dict obj_dict key_path = Ok v ->
  _get_value_from_nested_dict obj_dict (key_path ++ extra) = Ok v.
Proof.
  intros H.
  destruct obj_dict as [| | | | | d | |];
    try (destruct key_path; cbn in H; discriminate).
  - now apply walk_overlong_dict.
  - destruct key_path; cbn [_get_value_from_nested_dict] in H;
      unfold get_on_non_dict in H;
      destruct (fetch_attr _ "get"); discriminate.
Qed.

Lemma key_walk_ignores_extra_segments_witness :
  _get_value_from_nested_dict (VDict vm_instance)
    (["image"; "id"] ++ ["links"; "href"]) = Ok (VStr "im1").
Proof.
  apply key_walk_ignores_extra_segments. reflexivity.
Defined.

(** X7: the attribute-path walk composes: walking a path made of two
    non-empty parts is walking the first part and then the second from what
    the first gave, with the same fetches in the same order. *)
Theorem attr_walk_composes (first second : list string) :
  first <> [] -> second <> [] ->
  forall obj,
    _get_nested_attr obj (first ++ second)
    = (v <- _get_nested_attr obj first ;; _get_nested_attr v second).
Proof.
  intros Hfirst Hsecond.
  induction first as [| attr_name rest IH]; [now contradiction Hfirst | ].
  intros obj. cbn [app _get_nested_attr].
  destruct (truthy obj) eqn:Hobj; cbn [negb].
  - rewrite bind_assoc.
    destruct (getattr_default obj attr_name VNone) as [t [v | e]];
      [ | reflexivity].
    assert (match rest ++ second with
            | [] => ret v
            | _ :: _ => _get_nested_attr v (rest ++ second)
            end
            = (w <- match rest with
                    | [] => ret v
                    | _ :: _ => _get_nested_attr v rest
                    end ;; _get_nested_attr w second)) as Hstep.
    { destruct rest as [| next rest'].
      - rewrite bind_ret_l. cbn [app].
        destruct second; [now contradiction Hsecond | reflexivity].
      - cbn [app]. apply IH. discriminate. }
    cbn [bind]. rewrite Hstep. reflexivity.
  - rewrite bind_ret_l. now rewrite _get_nested_attr_falsy.
Qed.

Lemma attr_walk_composes_witness :
  _get_nested_attr (keystone_provider (VInt 7) VNone)
    (["keystone"] ++ ["tenants"])
  = (v <- _get_nested_attr (keystone_provider (VInt 7) VNone) ["keystone"] ;;
     _get_nested_attr v ["tenants"]).
Proof.
  apply attr_walk_composes; discriminate.
Defined.

(** X8: a manager that the loop over the candidates gives is truthy and is
    what the walk of one of the candidate paths gave. *)
Theorem found_manager_is_truthy (client_provider mgr : value)
    (resource_name : string) (paths : list (list string)) :
  snd (find_resource_manager client_provider resource_name paths) = Ok mgr ->
  truthy mgr = true /\
  exists path, In path paths /\
               snd (_get_nested_attr client_provider path) = Ok mgr.
Proof.
  induction paths as [| path rest IH]; cbn [find_resource_manager];
    [discriminate | ].
  rewrite snd_bind.
  destruct (snd (_get_nested_attr client_provider path)) as [v | e] eqn:Hv;
    [ | discriminate].
  destruct (truthy v) eqn:Htruth.
  - intros [= <-]. split; [exact Htruth | ].
    exists path. split; [now left | exact Hv].
  - intros H. destruct (IH H) as [Hm [p [Hin Hp]]].
    split; [exact Hm | ]. exists p. split; [now right | exact Hp].
Qed.

Lemma found_manager_is_truthy_witness :
  truthy (VInt 7) = true /\
  exists path,
    In path [["keystone"; "tenants"]; ["keystone"; "projects"]] /\
    snd (_get_nested_attr (keystone_provider (VStr "") (VInt 7)) path)
      = Ok (VInt 7).
Proof.
  apply (found_manager_is_truthy _ _ "tenant"). reflexivity.
Defined.

(** ** How often the client objects are called *)

Lemma no_call_no_list_call (t : list event) :
  existsb is_call t = false -> filter is_list_call t = [].
Proof.
  induction t as [| [name | name] rest IH]; cbn [existsb is_call filter
    is_list_call orb]; [reflexivity | exact IH | discriminate].
Qed.

Lemma instance_dict_no_list_call (inst : value) :
  filter is_list_call (fst (instance_dict inst)) = [].
Proof.
  unfold instance_dict, hasattr, call_method, getattr.
  destruct (fetch_attr inst "to_dict") as [[| | | | | | [v | e] |] | e];
    cbn [bind emit fst snd app of_outcome ret raise];
    try reflexivity;
    destruct (fetch_attr inst "__dict__"); reflexivity.
Qed.

Lemma fill_inst_details_no_list_call (inst : value)
    (attrs : list (string * list string)) :
  forall inst_details,
    filter is_list_call (fst (fill_inst_details inst attrs inst_details)) = [].
Proof.
  induction attrs as [| [attr_name attr_path] rest IH]; intros inst_details;
    cbn [fill_inst_details]; [reflexivity | ].
  rewrite fst_bind, filter_app, instance_dict_no_list_call. cbn [app].
  destruct (snd (instance_dict inst)) as [obj_dict | e]; [ | reflexivity].
  rewrite fst_bind. unfold lift. cbn [fst snd app].
  destruct (_get_value_from_nested_dict obj_dict attr_path);
    [apply IH | reflexivity].
Qed.

Lemma collect_resource_info_no_list_call
    (attrs : list (string * list string)) (instances : list value) :
  forall resource_info,
    filter is_list_call
      (fst (collect_resource_info instances attrs resource_info)) = [].
Proof.
  induction instances as [| inst rest IH]; intros resource_info;
    cbn [collect_resource_info]; [reflexivity | ].
  rewrite fst_bind, filter_app, fill_inst_details_no_list_call. cbn [app].
  destruct (snd (fill_inst_details inst attrs [])); [apply IH | reflexivity].
Qed.

Lemma call_method_list_cases (mgr : value) :
  (exists r, call_method mgr "list" = ([EGetattr "list"; ECall "list"], r)) \/
  (exists e, call_method mgr "list" = ([EGetattr "list"], Err e)).
Proof.
  unfold call_method, getattr.
  destruct (fetch_attr mgr "list") as [[| | | | | | [v | e] |] | e];
    cbn [bind emit fst snd app of_outcome ret raise];
    try (right; eexists; reflexivity); left; eexists; reflexivity.
Qed.

(** X9: whatever the provider and the kind, [list] is called at most once
    during an extraction, and exactly once when records are returned. *)
Theorem list_is_called_at_most_once (client_provider : value)
    (resource_name : string) :
  length (filter is_list_call
            (fst (get_info_from_os_resource_manager client_provider
                    resource_name))) <= 1 /\
  forall recs,
    snd (get_info_from_os_resource_manager client_provider resource_name)
      = Ok recs ->
    length (filter is_list_call
              (fst (get_info_from_os_resource_manager client_provider
                      resource_name))) = 1.
Proof.
  unfold get_info_from_os_resource_manager.
  destruct (lookup_resource resource_name) as [r | e];
    [rewrite bind_lift_ok | split; [repeat constructor | discriminate]].
  rewrite snd_bind, fst_bind, filter_app.
  rewrite (no_call_no_list_call _ (find_resource_manager_no_call _ _ _)).
  cbn [app].
  destruct (snd (find_resource_manager client_provider resource_name
                   (resource_manager_path r))) as [mgr | e];
    [ | split; [repeat constructor | discriminate]].
  rewrite snd_bind, fst_bind, filter_app.
  destruct (call_method_list_cases mgr) as [[res ->] | [e ->]]; cbn [fst snd].
  - destruct res as [instances_list | e];
      [ | split; [repeat constructor | discriminate]].
    rewrite fst_bind, snd_bind, filter_app.
    assert (forall instances,
              filter is_list_call
                (fst (collect_resource_info instances (attr_names r) []))
              = []) as Hnone
      by (intros; apply collect_resource_info_no_list_call).
    destruct instances_list; cbn [iterate ret raise fst snd];
      try rewrite Hnone;
      (split; [repeat constructor | first [discriminate | reflexivity]]).
  - split; [repeat constructor | discriminate].
Qed.

Lemma list_is_called_at_most_once_witness :
  length (filter is_list_call
            (fst (get_info_from_os_resource_manager
                    (nova_provider
                       (manager (Returns (VList [plain_instance vm_instance]))))
                    "vm"))) = 1.
Proof.
  apply (proj2 (list_is_called_at_most_once
                  (nova_provider
                     (manager (Returns (VList [plain_instance vm_instance]))))
                  "vm") [vm_record]).
  reflexivity.
Defined.

Lemma instance_dict_with_to_dict (inst : value) (body : outcome) :
  fetch_attr inst "to_dict" = Returns (VFun body) ->
  instance_dict inst
  = ([EGetattr "to_dict"; EGetattr "to_dict"; ECall "to_dict"],
     match body with
     | Returns v => Ok v
     | Raises e => Err e
     end).
Proof.
  intros H. unfold instance_dict, hasattr, call_method, getattr.
  rewrite H. destruct body; reflexivity.
Qed.

(** X10: for an instance that has [to_dict], building its record calls
    [to_dict] once for every attribute of the schema, not once for the
    instance. *)
Theorem to_dict_is_called_for_every_attribute (inst : value) (body : outcome)
    (attrs : list (string * list string)) (inst_details rec : dict) :
  fetch_attr inst "to_dict" = Returns (VFun body) ->
  snd (fill_inst_details inst attrs inst_details) = Ok rec ->
  length (filter is_to_dict_call
            (fst (fill_inst_details inst attrs inst_details)))
  = length attrs.
Proof.
  intros Hto. pose proof (instance_dict_with_to_dict _ _ Hto) as Hd.
  revert inst_details.
  induction attrs as [| [attr_name attr_path] rest IH]; intros inst_details;
    cbn [fill_inst_details]; [reflexivity | ].
  rewrite snd_bind, fst_bind, Hd. cbn [fst snd].
  destruct body as [obj_dict | e]; [ | discriminate].
  rewrite snd_bind, fst_bind. unfold lift. cbn [fst snd].
  destruct (_get_value_from_nested_dict obj_dict attr_path) as [v | e];
    [ | discriminate].
  intros Hrec. cbn [app filter is_to_dict_call].
  change ("to_dict" =? "to_dict") with true. cbn [length]. f_equal.
  exact (IH _ Hrec).
Qed.

Lemma to_dict_is_called_for_every_attribute_witness :
  length (filter is_to_dict_call
            (fst (fill_inst_details (instance_with_to_dict vm_instance)
                    [("id", ["id"]); ("status", ["status"]);
                     ("image_id", ["image"; "id"])] [])))
  = 3.
Proof.
  apply (to_dict_is_called_for_every_attribute
           (instance_with_to_dict vm_instance)
           (Returns (VDict vm_instance))
           [("id", ["id"]); ("status", ["status"]);
            ("image_id", ["image"; "id"])] []
           [("id", VStr "i-1"); ("status", VStr "ACTIVE");
            ("image_id", VStr "im1")]);
    reflexivity.
Defined.

(** ** The online controller *)

Lemma filter_head_split {A : Type} (f : A -> bool) (l : list A) (x : A)
    (rest : list A) :
  filter f l = x :: rest ->
  exists before after,
    l = before ++ x :: after /\
    Forall (fun y => f y = false) before /\ f x = true.
Proof.
  induction l as [| y l' IH]; cbn [filter]; [discriminate | ].
  destruct (f y) eqn:Hy.
  - intros [= -> _]. exists [], l'. repeat split; [constructor | exact Hy].
  - intros H. destruct (IH H) as [before [after [-> [Hb Hx]]]].
    exists (y :: before), after. repeat split; [now constructor | exact Hx].
Qed.

Lemma filter_skip {A : Type} (f : A -> bool) (before rest : list A) :
  Forall (fun y => f y = false) before ->
  filter f (before ++ rest) = filter f rest.
Proof.
  induction 1 as [| y before' Hy _ IH]; cbn [app filter];
    [reflexivity | now rewrite Hy].
Qed.

Lemma filter_none {A : Type} (f : A -> bool) (l : list A) :
  filter f l = [] <-> Forall (fun y => f y = false) l.
Proof.
  induction l as [| y l' IH]; cbn [filter].
  - split; [constructor | reflexivity].
  - destruct (f y) eqn:Hy.
    + split; [discriminate | ]. intros H. inversion H; congruence.
    + rewrite IH. split; [now constructor | now inversion 1].
Qed.

(** X11: the controller returned is the first node of the cluster, in the
    order of [cluster.nodes], that has the role "controller" and whose
    [online] is True; and any such first node is returned. *)
Theorem online_controller_is_first (c : cluster) (n : node) :
  _get_online_controller c = Ok n <->
  exists before after,
    nodes c = before ++ n :: after /\
    Forall (fun m => is_online_controller m = false) before /\
    is_online_controller n = true.
Proof.
  unfold _get_online_controller. split.
  - destruct (filter is_online_controller (nodes c)) as [| m rest] eqn:Hf;
      [discriminate | ].
    intros [= <-]. exact (filter_head_split _ _ _ _ Hf).
  - intros [before [after [-> [Hb Hn]]]].
    rewrite (filter_skip _ _ _ Hb). cbn [filter]. now rewrite Hn.
Qed.

Lemma online_controller_is_first_witness :
  _get_online_controller
    {| nodes := [
         {| roles := ["compute"]; online := VBool true; ip := "10.0.0.2" |};
         {| roles := ["controller"]; online := VBool false; ip := "10.0.0.3" |};
         {| roles := ["controller"; "cinder"]; online := VBool true;
            ip := "10.0.0.4" |};
         {| roles := ["controller"]; online := VBool true; ip := "10.0.0.5" |}
       ] |}
  = Ok {| roles := ["controller"; "cinder"]; online := VBool true;
          ip := "10.0.0.4" |}.
Proof.
  apply (proj2 (online_controller_is_first _ _)).
  exists [{| roles := ["compute"]; online := VBool true; ip := "10.0.0.2" |};
          {| roles := ["controller"]; online := VBool false;
             ip := "10.0.0.3" |}],
         [{| roles := ["controller"]; online := VBool true;
             ip := "10.0.0.5" |}].
  repeat split. repeat constructor.
Defined.

(** X12: looking for the online controller fails exactly when no node of
    the cluster is an online controller, and then with IndexError. *)
Theorem no_online_controller_raises (c : cluster) (e : exn) :
  _get_online_controller c = Err e <->
  e = IndexError /\
  Forall (fun m => is_online_controller m = false) (nodes c).
Proof.
  unfold _get_online_controller. rewrite <- filter_none.
  destruct (filter is_online_controller (nodes c)) as [| m rest].
  - split; [intros [= <-]; now split | intros [-> _]; reflexivity].
  - split; [discriminate | intros [_ H]; discriminate H].
Qed.

Lemma no_online_controller_raises_witness :
  _get_online_controller
    {| nodes := [
         {| roles := ["controller"]; online := VInt 1; ip := "10.0.0.3" |};
         {| roles := ["compute"]; online := VBool true; ip := "10.0.0.2" |}
       ] |}
  = Err IndexError.
Proof.
  apply (proj2 (no_online_controller_raises _ _)).
  split; [reflexivity | repeat constructor].
Defined.

(** X13: the proxy of a cluster is made of the address of its first online
    controller; nodes before it that are not online controllers, and all
    nodes after it, have no influence. *)
Theorem proxy_is_first_online_controller (proxy_port : string)
    (before after : list node) (n : node) :
  Forall (fun m => is_online_controller m = false) before ->
  is_online_controller n = true ->
  get_proxy_for_cluster proxy_port {| nodes := before ++ n :: after |}
  = Ok ("http://" ++ ip n ++ ":" ++ proxy_port)%string.
Proof.
  intros Hb Hn. unfold get_proxy_for_cluster.
  unfold _get_online_controller. cbn [nodes].
  rewrite (filter_skip _ _ _ Hb). cbn [filter]. rewrite Hn. reflexivity.
Qed.

Lemma proxy_is_first_online_controller_witness :
  get_proxy_for_cluster "8888"
    {| nodes :=
         [{| roles := ["controller"]; online := VNone; ip := "10.0.0.3" |}] ++
         {| roles := ["controller"]; online := VBool true; ip := "10.0.0.4" |}
         :: [] |}
  = Ok "http://10.0.0.4:8888".
Proof.
  apply (proxy_is_first_online_controller "8888"
           [{| roles := ["controller"]; online := VNone; ip := "10.0.0.3" |}]
           []
           {| roles := ["controller"]; online := VBool true;
              ip := "10.0.0.4" |});
    [repeat constructor | reflexivity].
Defined.

(** ** Setting and restoring the proxy *)

Lemma assoc_env_set_same (env : environ) (k v : string) :
  assoc (env_set env k v) k = Some v.
Proof.
  induction env as [| [k' v'] rest IH]; cbn [env_set assoc].
  - now rewrite String.eqb_refl.
  - destruct (String.eqb k' k) eqn:Hk; cbn [assoc]; rewrite Hk;
      [reflexivity | exact IH].
Qed.

Lemma assoc_env_set_other (env : environ) (k v k0 : string) :
  k0 <> k -> assoc (env_set env k v) k0 = assoc env k0.
Proof.
  intros Hne. induction env as [| [k' v'] rest IH]; cbn [env_set assoc].
  - destruct (String.eqb_spec k k0); [congruence | reflexivity].
  - destruct (String.eqb_spec k' k) as [-> | _]; cbn [assoc].
    + destruct (String.eqb_spec k k0); [congruence | reflexivity].
    + now rewrite IH.
Qed.

Lemma assoc_env_remove_same (env : environ) (k : string) :
  assoc (env_remove env k) k = None.
Proof.
  induction env as [| [k' v'] rest IH]; cbn [env_remove]; [reflexivity | ].
  destruct (String.eqb k' k) eqn:Hk; [exact IH | ].
  cbn [assoc]. now rewrite Hk.
Qed.

Lemma assoc_env_remove_other (env : environ) (k k0 : string) :
  k0 <> k -> assoc (env_remove env k) k0 = assoc env k0.
Proof.
  intros Hne. induction env as [| [k' v'] rest IH]; cbn [env_remove assoc];
    [reflexivity | ].
  destruct (String.eqb_spec k' k) as [-> | _]; cbn [assoc].
  - destruct (String.eqb_spec k k0); [congruence | exact IH].
  - now rewrite IH.
Qed.

(** The three results of the [with] statement, from its parts. *)
Lemma with_set_proxy_unfold (text_of : exn -> string) (proxy : string)
    (block : environ -> environ * result unit) (env : environ) :
  with_set_proxy text_of proxy block env
  = let enter := set_proxy_enter proxy env in
    let ran := block (fst (fst enter)) in
    let leave := set_proxy_exit text_of (snd enter) (snd ran) (fst ran) in
    (fst (fst leave), snd (fst enter) ++ snd (fst leave), snd leave).
Proof.
  unfold with_set_proxy.
  destruct (set_proxy_enter proxy env) as [[env1 logged1] old].
  cbn [fst snd]. destruct (block env1) as [env2 outcome]. cbn [fst snd].
  destruct (set_proxy_exit text_of old outcome env2) as [[env3 logged2] r].
  reflexivity.
Qed.

(** X14: when the block leaves the variable http_proxy alone and the
    variable was unset or not empty before, the [with] statement ends
    normally, also when the block raised, and http_proxy is what it was
    before. *)
Theorem set_proxy_restores (text_of : exn -> string) (proxy : string)
    (block : environ -> environ * result unit) (env : environ) :
  (forall e, assoc (fst (block e)) "http_proxy" = assoc e "http_proxy") ->
  assoc env "http_proxy" <> Some "" ->
  snd (with_set_proxy text_of proxy block env) = Ok tt /\
  assoc (fst (fst (with_set_proxy text_of proxy block env))) "http_proxy"
    = assoc env "http_proxy".
Proof.
  intros Hblock Hold. rewrite with_set_proxy_unfold. cbv zeta.
  unfold set_proxy_enter. cbn [fst snd].
  pose proof (Hblock (env_set env "http_proxy" proxy)) as Hkept.
  rewrite assoc_env_set_same in Hkept.
  destruct (block (env_set env "http_proxy" proxy)) as [env2 outcome].
  cbn [fst snd] in *. unfold set_proxy_exit.
  destruct (assoc env "http_proxy") as [old | ] eqn:Hbefore.
  - destruct (String.eqb_spec old "") as [-> | _]; [congruence | ].
    cbn [fst snd]. now rewrite assoc_env_set_same.
  - unfold env_del. rewrite Hkept. cbn [fst snd].
    now rewrite assoc_env_remove_same.
Qed.

Lemma set_proxy_restores_witness :
  snd (with_set_proxy (fun _ => "refused") "http://10.0.0.4:8888"
         (fun e => (env_set e "LANG" "C", Err (ClientError "refused")))
         [("http_proxy", "http://old:3128")]) = Ok tt /\
  assoc (fst (fst (with_set_proxy (fun _ => "refused") "http://10.0.0.4:8888"
                     (fun e => (env_set e "LANG" "C",
                                Err (ClientError "refused")))
                     [("http_proxy", "http://old:3128")]))) "http_proxy"
    = assoc [("http_proxy", "http://old:3128")] "http_proxy".
Proof.
  apply set_proxy_restores.
  - intros e. cbn [fst]. apply assoc_env_set_other. discriminate.
  - discriminate.
Defined.

(** X15: the block runs with http_proxy set to the proxy, and after the
    [with] statement every other variable is as the block left it. *)
Theorem set_proxy_touches_only_http_proxy (text_of : exn -> string)
    (proxy : string) (block : environ -> environ * result unit)
    (env : environ) (k : string) :
  k <> "http_proxy" ->
  assoc (env_set env "http_proxy" proxy) "http_proxy" = Some proxy /\
  assoc (env_set env "http_proxy" proxy) k = assoc env k /\
  assoc (fst (fst (with_set_proxy text_of proxy block env))) k
    = assoc (fst (block (env_set env "http_proxy" proxy))) k.
Proof.
  intros Hk. split; [apply assoc_env_set_same | ].
  split; [now apply assoc_env_set_other | ].
  rewrite with_set_proxy_unfold. cbv zeta.
  unfold set_proxy_enter. cbn [fst snd].
  destruct (block (env_set env "http_proxy" proxy)) as [env2 outcome].
  cbn [fst snd]. unfold set_proxy_exit.
  destruct (match assoc env "http_proxy" with
            | Some old => if String.eqb old "" then None else Some old
            | None => None
            end) as [old | ]; cbn [fst snd].
  - now apply assoc_env_set_other.
  - unfold env_del. destruct (assoc env2 "http_proxy"); cbn [fst snd];
      [now apply assoc_env_remove_other | reflexivity].
Qed.

Lemma set_proxy_touches_only_http_proxy_witness :
  assoc (env_set [("PATH", "/bin")] "http_proxy" "http://p:1") "http_proxy"
    = Some "http://p:1" /\
  assoc (env_set [("PATH", "/bin")] "http_proxy" "http://p:1") "PATH"
    = assoc [("PATH", "/bin")] "PATH" /\
  assoc (fst (fst (with_set_proxy (fun _ => "") "http://p:1"
                     (fun e => (env_set e "PATH" "/usr/bin", Ok tt))
                     [("PATH", "/bin")]))) "PATH"
    = assoc (fst ((fun e => (env_set e "PATH" "/usr/bin", Ok tt))
                    (env_set [("PATH", "/bin")] "http_proxy" "http://p:1")))
            "PATH".
Proof.
  apply (set_proxy_touches_only_http_proxy (fun _ => "") "http://p:1"
           (fun e => (env_set e "PATH" "/usr/bin", Ok tt))
           [("PATH", "/bin")] "PATH").
  discriminate.
Defined.

(** X16: an exception of the block never leaves the [with] statement as
    long as http_proxy is still set when the block ends: the statement ends
    normally and the exception is in the log. *)
Theorem set_proxy_swallows_exceptions (text_of : exn -> string)
    (proxy : string) (block : environ -> environ * result unit)
    (env : environ) (e : exn) :
  snd (block (env_set env "http_proxy" proxy)) = Err e ->
  assoc (fst (block (env_set env "http_proxy" proxy))) "http_proxy" <> None ->
  snd (with_set_proxy text_of proxy block env) = Ok tt /\
  In (LogException ("Error while talking to proxy. Details: " ++ text_of e))
     (snd (fst (with_set_proxy text_of proxy block env))).
Proof.
  rewrite with_set_proxy_unfold. cbv zeta.
  unfold set_proxy_enter. cbn [fst snd].
  destruct (block (env_set env "http_proxy" proxy)) as [env2 outcome].
  cbn [fst snd]. intros -> Hset. unfold set_proxy_exit.
  destruct (match assoc env "http_proxy" with
            | Some old => if String.eqb old "" then None else Some old
            | None => None
            end) as [old | ]; cbn [fst snd].
  - split; [reflexivity | ]. apply in_or_app. right. now left.
  - unfold env_del. destruct (assoc env2 "http_proxy"); [ | congruence].
    cbn [fst snd]. split; [reflexivity | now left].
Qed.

Lemma set_proxy_swallows_exceptions_witness :
  snd (with_set_proxy (fun _ => "timeout") "http://p:1"
         (fun e => (e, Err (ClientError "timeout"))) []) = Ok tt /\
  In (LogException ("Error while talking to proxy. Details: " ++ "timeout"))
     (snd (fst (with_set_proxy (fun _ => "timeout") "http://p:1"
                  (fun e => (e, Err (ClientError "timeout"))) []))).
Proof.
  apply (set_proxy_swallows_exceptions (fun _ => "timeout") "http://p:1"
           (fun e => (e, Err (ClientError "timeout"))) []
           (ClientError "timeout"));
    [reflexivity | discriminate].
Defined.

(** X17: an http_proxy that was set to the empty string is not restored:
    when the block leaves the variable alone, the variable is unset after
    the [with] statement. *)
Theorem set_proxy_drops_empty_old_value (text_of : exn -> string)
    (proxy : string) (block : environ -> environ * result unit)
    (env : environ) :
  (forall e, assoc (fst (block e)) "http_proxy" = assoc e "http_proxy") ->
  assoc env "http_proxy" = Some "" ->
  snd (with_set_proxy text_of proxy block env) = Ok tt /\
  assoc (fst (fst (with_set_proxy text_of proxy block env))) "http_proxy"
    = None.
Proof.
  intros Hblock Hold. rewrite with_set_proxy_unfold. cbv zeta.
  unfold set_proxy_enter. cbn [fst snd].
  pose proof (Hblock (env_set env "http_proxy" proxy)) as Hkept.
  rewrite assoc_env_set_same in Hkept.
  destruct (block (env_set env "http_proxy" proxy)) as [env2 outcome].
  cbn [fst snd] in *. rewrite Hold. cbn [String.eqb].
  unfold set_proxy_exit, env_del. rewrite Hkept. cbn [fst snd].
  now rewrite assoc_env_remove_same.
Qed.

Lemma set_proxy_drops_empty_old_value_witness :
  snd (with_set_proxy (fun _ => "") "http://p:1" (fun e => (e, Ok tt))
         [("http_proxy", "")]) = Ok tt /\
  assoc (fst (fst (with_set_proxy (fun _ => "") "http://p:1"
                     (fun e => (e, Ok tt)) [("http_proxy", "")])))
        "http_proxy" = None.
Proof.
  apply set_proxy_drops_empty_old_value; reflexivity.
Defined.

(** X18: when no old value was kept (http_proxy unset or empty before) and
    the block ends with http_proxy unset, the [with] statement raises
    KeyError for http_proxy, whatever the block's own outcome was. *)
Theorem set_proxy_raises_when_block_unsets (text_of : exn -> string)
    (proxy : string) (block : environ -> environ * result unit)
    (env : environ) :
  assoc env "http_proxy" = None \/ assoc env "http_proxy" = Some "" ->
  assoc (fst (block (env_set env "http_proxy" proxy))) "http_proxy" = None ->
  snd (with_set_proxy text_of proxy block env) = Err (KeyError "http_proxy").
Proof.
  intros Hold. rewrite with_set_proxy_unfold. cbv zeta.
  unfold set_proxy_enter. cbn [fst snd].
  destruct (block (env_set env "http_proxy" proxy)) as [env2 outcome].
  cbn [fst snd]. intros Hunset.
  assert (match assoc env "http_proxy" with
          | Some old => if String.eqb old "" then None else Some old
          | None => None
          end = None) as ->
    by (destruct Hold as [-> | ->]; reflexivity).
  unfold set_proxy_exit, env_del. rewrite Hunset. reflexivity.
Qed.

Lemma set_proxy_raises_when_block_unsets_witness :
  snd (with_set_proxy (fun _ => "") "http://p:1"
         (fun e => (env_remove e "http_proxy", Ok tt)) [("PATH", "/bin")])
  = Err (KeyError "http_proxy").
Proof.
  apply set_proxy_raises_when_block_unsets; [now left | reflexivity].
Defined.

(** ** The keystone client *)

Lemma passed_over_tests (version_tuple : list Z) :
  passed_over version_tuple = true ->
  exists version rest,
    version_tuple = version :: rest /\
    (version <=? 2)%Z = false /\ (version =? 3)%Z = false.
Proof.
  destruct version_tuple as [| version rest]; cbn [passed_over];
    [discriminate | ].
  intros H%Z.ltb_lt. exists version, rest.
  repeat split; [apply Z.leb_gt | apply Z.eqb_neq]; lia.
Qed.

Lemma keystone_client_for_passed_over {client : Type} (svc : services client)
    (auth_creds : auth_kwargs) (before rest : list (list Z)) :
  forallb passed_over before = true ->
  keystone_client_for svc auth_creds (before ++ rest)
  = keystone_client_for svc auth_creds rest.
Proof.
  induction before as [| version_tuple before' IH]; cbn [forallb app];
    [reflexivity | ].
  intros [Hhead Htail]%andb_prop.
  destruct (passed_over_tests _ Hhead) as [version [more [-> [Hle Heq]]]].
  cbn [keystone_client_for]. rewrite Hle, Heq. now apply IH.
Qed.

(** X19: the first version of the discovery whose major number is at most
    3 chooses the client: the v2 client when it is at most 2 (0 and 1
    included), the v3 client when it is 3; versions above 3 before it are
    passed over and what comes after it is not looked at. *)
Theorem keystone_client_follows_first_known_version {client : Type}
    (svc : services client) (auth_creds : auth_kwargs)
    (before after : list (list Z)) (version : Z) (minor : list Z) :
  keystone_Discover svc auth_creds
    = Ok (before ++ (version :: minor) :: after) ->
  forallb passed_over before = true ->
  (version <= 3)%Z ->
  _get_keystone_client svc auth_creds
  = if (version <=? 2)%Z
    then ([ECall "keystone_discover.Discover";
           ECall "keystone_client_v2.Client"],
          keystone_v2_Client svc auth_creds)
    else ([ECall "keystone_discover.Discover";
           ECall "keystone_client_v3.Client"],
          keystone_v3_Client svc auth_creds).
Proof.
  intros Hdiscover Hbefore Hversion. unfold _get_keystone_client, call.
  rewrite Hdiscover. cbn [bind].
  rewrite (keystone_client_for_passed_over _ _ _ _ Hbefore).
  cbn [keystone_client_for].
  destruct (version <=? 2)%Z eqn:Hle; [reflexivity | ].
  assert ((version =? 3)%Z = true) as ->
    by (apply Z.eqb_eq; apply Z.leb_gt in Hle; lia).
  reflexivity.
Qed.

Lemma keystone_client_follows_first_known_version_witness :
  _get_keystone_client (example_services [[4; 0]; [3; 0]; [2; 0]]%Z)
    example_auth
  = ([ECall "keystone_discover.Discover"; ECall "keystone_client_v3.Client"],
     Ok "keystone v3").
Proof.
  apply (keystone_client_follows_first_known_version
           (example_services [[4; 0]; [3; 0]; [2; 0]]%Z) example_auth
           [[4; 0]%Z] [[2; 0]%Z] 3%Z [0%Z]);
    [reflexivity | reflexivity | lia].
Defined.

(** X20: when every version of the discovery has a major number above 3
    (or there is none), the exception naming the auth_url is raised and no
    keystone client is made. *)
Theorem keystone_discovery_fails_on_unknown_versions {client : Type}
    (svc : services client) (auth_creds : auth_kwargs)
    (version_data : list (list Z)) :
  keystone_Discover svc auth_creds = Ok version_data ->
  forallb passed_over version_data = true ->
  _get_keystone_client svc auth_creds
  = ([ECall "keystone_discover.Discover"],
     Err (Exception ("Failed to discover keystone version for auth_url " ++
                     kw_auth_url auth_creds))).
Proof.
  intros Hdiscover Hall. unfold _get_keystone_client, call.
  rewrite Hdiscover. cbn [bind].
  rewrite <- (app_nil_r version_data).
  rewrite (keystone_client_for_passed_over _ _ _ _ Hall).
  reflexivity.
Qed.

Lemma keystone_discovery_fails_on_unknown_versions_witness :
  _get_keystone_client (example_services [[4; 0]; [5; 1]]%Z) example_auth
  = ([ECall "keystone_discover.Discover"],
     Err (Exception ("Failed to discover keystone version for auth_url " ++
                     "http://10.0.0.4:5000/v2.0/"))).
Proof.
  apply (keystone_discovery_fails_on_unknown_versions
           (example_services [[4; 0]; [5; 1]]%Z) example_auth
           [[4; 0]; [5; 1]]%Z);
    reflexivity.
Defined.

(** ** The caches of the client provider *)

Lemma credentials_cached {client : Type} (svc : services client)
    (self : ClientProvider client) (c : creds) :
  _credentials self = Some c -> credentials svc self = ([], Ok c, self).
Proof.
  intros H. unfold credentials, sbind, sget. rewrite H. reflexivity.
Qed.

Lemma credentials_fresh {client : Type} (svc : services client)
    (self : ClientProvider client) :
  _credentials self = None ->
  credentials svc self
  = match snd (compute_credentials svc (its_cluster self)) with
    | Ok c => (fst (compute_credentials svc (its_cluster self)), Ok c,
               set_credentials self c)
    | Err e => (fst (compute_credentials svc (its_cluster self)), Err e, self)
    end.
Proof.
  intros H. unfold credentials, sbind, sget, slift, sput, sret. rewrite H.
  cbn [app]. destruct (snd (compute_credentials svc (its_cluster self)));
    [now rewrite !app_nil_r | reflexivity].
Qed.

(** What an access to [credentials] leaves behind. *)
Lemma credentials_after {client : Type} (svc : services client)
    (self self1 : ClientProvider client) (t : list event) (r : result creds) :
  credentials svc self = (t, r, self1) ->
  its_cluster self1 = its_cluster self /\
  _nova self1 = _nova self /\ _cinder self1 = _cinder self /\
  _keystone self1 = _keystone self /\
  match r with
  | Ok c => _credentials self1 = Some c
  | Err _ => self1 = self
  end.
Proof.
  destruct (_credentials self) as [c | ] eqn:Hc.
  - rewrite (credentials_cached _ _ _ Hc). intros [= <- <- <-]. now repeat split.
  - rewrite (credentials_fresh _ _ Hc).
    destruct (snd (compute_credentials svc (its_cluster self)));
      intros [= <- <- <-]; now repeat split.
Qed.

(** X21: [credentials] is memoized: after an access that returned, every
    further access returns the same tuple, calls nothing and leaves the
    provider as it is. *)
Theorem credentials_are_computed_once {client : Type} (svc : services client)
    (self self1 : ClientProvider client) (t : list event) (c : creds) :
  credentials svc self = (t, Ok c, self1) ->
  credentials svc self1 = ([], Ok c, self1).
Proof.
  intros H. apply credentials_after in H.
  apply credentials_cached. tauto.
Qed.

Lemma credentials_are_computed_once_witness :
  credentials (example_services [[2; 0]%Z])
    (set_credentials (new_provider string example_cluster) example_creds)
  = ([], Ok example_creds,
     set_credentials (new_provider string example_cluster) example_creds).
Proof.
  apply (credentials_are_computed_once (example_services [[2; 0]%Z])
           (new_provider string example_cluster) _
           [ECall "Cluster.get_creds";
            ECall "NetworkManager._get_ip_by_network_name";
            EGetattr "ip_addr"]).
  reflexivity.
Defined.

Lemma nova_cached {client : Type} (svc : services client)
    (self : ClientProvider client) (x : client) :
  _nova self = Some x -> nova svc self = ([], Ok x, self).
Proof.
  intros H. unfold nova, sbind, sget. rewrite H. reflexivity.
Qed.

Lemma nova_fresh {client : Type} (svc : services client)
    (self : ClientProvider client) :
  _nova self = None ->
  nova svc self
  = let '(t, r, self1) := credentials svc self in
    match r with
    | Err e => (t, Err e, self1)
    | Ok c =>
        match nova_Client svc c with
        | Ok x => (t ++ [ECall "nova_client.Client"], Ok x, set_nova self1 x)
        | Err e => (t ++ [ECall "nova_client.Client"], Err e, self1)
        end
    end.
Proof.
  intros H. unfold nova. unfold sbind at 1. unfold sget at 1. rewrite H.
  cbn [app]. unfold sbind at 1.
  destruct (credentials svc self) as [[t r] self1].
  destruct r as [c | e]; [ | reflexivity].
  unfold sbind, slift, call, sget, sput, sret. cbn [fst snd].
  destruct (nova_Client svc c); [now rewrite !app_nil_r | reflexivity].
Qed.

Lemma cinder_cached {client : Type} (svc : services client)
    (self : ClientProvider client) (x : client) :
  _cinder self = Some x -> cinder svc self = ([], Ok x, self).
Proof.
  intros H. unfold cinder, sbind, sget. rewrite H. reflexivity.
Qed.

Lemma cinder_fresh {client : Type} (svc : services client)
    (self : ClientProvider client) :
  _cinder self = None ->
  cinder svc self
  = let '(t, r, self1) := credentials svc self in
    match r with
    | Err e => (t, Err e, self1)
    | Ok c =>
        match cinder_Client svc c with
        | Ok x => (t ++ [ECall "cinder_client.Client"], Ok x,
                   set_cinder self1 x)
        | Err e => (t ++ [ECall "cinder_client.Client"], Err e, self1)
        end
    end.
Proof.
  intros H. unfold cinder. unfold sbind at 1. unfold sget at 1. rewrite H.
  cbn [app]. unfold sbind at 1.
  destruct (credentials svc self) as [[t r] self1].
  destruct r as [c | e]; [ | reflexivity].
  unfold sbind, slift, call, sget, sput, sret. cbn [fst snd].
  destruct (cinder_Client svc c); [now rewrite !app_nil_r | reflexivity].
Qed.

Lemma keystone_cached {client : Type} (svc : services client)
    (self : ClientProvider client) (x : client) :
  _keystone self = Some x -> keystone svc self = ([], Ok x, self).
Proof.
  intros H. unfold keystone, sbind, sget. rewrite H. reflexivity.
Qed.

Lemma sbind_credentials_cached {client A : Type} (svc : services client)
    (self : ClientProvider client) (c : creds)
    (k : creds -> SM (ClientProvider client) A) :
  _credentials self = Some c ->
  sbind (credentials svc) k self = k c self.
Proof.
  intros H. unfold sbind. rewrite (credentials_cached _ _ _ H).
  destruct (k c self) as [[t r] s]. reflexivity.
Qed.

Lemma keystone_fresh {client : Type} (svc : services client)
    (self : ClientProvider client) :
  _keystone self = None ->
  keystone svc self
  = let '(t, r, self1) := credentials svc self in
    match r with
    | Err e => (t, Err e, self1)
    | Ok c =>
        match snd (_get_keystone_client svc (auth_kwargs_of c)) with
        | Ok x => (t ++ fst (_get_keystone_client svc (auth_kwargs_of c)),
                   Ok x, set_keystone self1 x)
        | Err e => (t ++ fst (_get_keystone_client svc (auth_kwargs_of c)),
                    Err e, self1)
        end
    end.
Proof.
  intros H. unfold keystone. unfold sbind at 1. unfold sget at 1. rewrite H.
  cbn [app]. unfold sbind at 1.
  destruct (credentials svc self) as [[t r] self1] eqn:Hc.
  destruct r as [c | e]; [ | reflexivity].
  apply credentials_after in Hc. destruct Hc as [_ [_ [_ [_ Hc]]]].
  rewrite !(sbind_credentials_cached _ _ _ _ Hc).
  fold (auth_kwargs_of c).
  unfold sbind, slift, sget, sput, sret.
  destruct (snd (_get_keystone_client svc (auth_kwargs_of c)));
    [now rewrite !app_nil_r | reflexivity].
Qed.

(** X22: the three clients are memoized: after an access to [nova],
    [cinder] or [keystone] that returned a client, every further access to
    it returns the same client, calls nothing and leaves the provider as it
    is. *)
Theorem clients_are_made_once {client : Type} (svc : services client)
    (self self1 : ClientProvider client) (t : list event) (x : client) :
  (nova svc self = (t, Ok x, self1) -> nova svc self1 = ([], Ok x, self1)) /\
  (cinder svc self = (t, Ok x, self1) ->
   cinder svc self1 = ([], Ok x, self1)) /\
  (keystone svc self = (t, Ok x, self1) ->
   keystone svc self1 = ([], Ok x, self1)).
Proof.
  split; [ | split].
  - destruct (_nova self) as [x' | ] eqn:Hn.
    + rewrite (nova_cached _ _ _ Hn). intros [= <- <- <-].
      now apply nova_cached.
    + rewrite (nova_fresh _ _ Hn).
      destruct (credentials svc self) as [[t' [c | e]] s]; [ | discriminate].
      destruct (nova_Client svc c); [ | discriminate].
      intros [= <- <- <-]. now apply nova_cached.
  - destruct (_cinder self) as [x' | ] eqn:Hn.
    + rewrite (cinder_cached _ _ _ Hn). intros [= <- <- <-].
      now apply cinder_cached.
    + rewrite (cinder_fresh _ _ Hn).
      destruct (credentials svc self) as [[t' [c | e]] s]; [ | discriminate].
      destruct (cinder_Client svc c); [ | discriminate].
      intros [= <- <- <-]. now apply cinder_cached.
  - destruct (_keystone self) as [x' | ] eqn:Hn.
    + rewrite (keystone_cached _ _ _ Hn). intros [= <- <- <-].
      now apply keystone_cached.
    + rewrite (keystone_fresh _ _ Hn).
      destruct (credentials svc self) as [[t' [c | e]] s]; [ | discriminate].
      destruct (snd (_get_keystone_client svc (auth_kwargs_of c)));
        [ | discriminate].
      intros [= <- <- <-]. now apply keystone_cached.
Qed.

Lemma clients_are_made_once_witness :
  nova (example_services [[3; 0]%Z])
    (set_nova (set_credentials (new_provider string example_cluster)
                 example_creds) "nova")
  = ([], Ok "nova",
     set_nova (set_credentials (new_provider string example_cluster)
                 example_creds) "nova") /\
  cinder (example_services [[3; 0]%Z])
    (set_cinder (set_credentials (new_provider string example_cluster)
                   example_creds) "cinder")
  = ([], Ok "cinder",
     set_cinder (set_credentials (new_provider string example_cluster)
                   example_creds) "cinder") /\
  keystone (example_services [[3; 0]%Z])
    (set_keystone (set_credentials (new_provider string example_cluster)
                     example_creds) "keystone v3")
  = ([], Ok "keystone v3",
     set_keystone (set_credentials (new_provider string example_cluster)
                     example_creds) "keystone v3").
Proof.
  split; [ | split].
  - apply (proj1 (clients_are_made_once (example_services [[3; 0]%Z])
                    (new_provider string example_cluster) _
                    [ECall "Cluster.get_creds";
                     ECall "NetworkManager._get_ip_by_network_name";
                     EGetattr "ip_addr"; ECall "nova_client.Client"]
                    "nova")).
    reflexivity.
  - apply (proj1 (proj2 (clients_are_made_once (example_services [[3; 0]%Z])
                    (new_provider string example_cluster) _
                    [ECall "Cluster.get_creds";
                     ECall "NetworkManager._get_ip_by_network_name";
                     EGetattr "ip_addr"; ECall "cinder_client.Client"]
                    "cinder"))).
    reflexivity.
  - apply (proj2 (proj2 (clients_are_made_once (example_services [[3; 0]%Z])
                    (new_provider string example_cluster) _
                    [ECall "Cluster.get_creds";
                     ECall "NetworkManager._get_ip_by_network_name";
                     EGetattr "ip_addr"; ECall "keystone_discover.Discover";
                     ECall "keystone_client_v3.Client"]
                    "keystone v3"))).
    reflexivity.
Defined.

Lemma fst_bind_lift {A B : Type} (r : result A) (f : A -> M B) :
  fst (bind (lift r) f) = match r with
                          | Ok a => fst (f a)
                          | Err _ => []
                          end.
Proof.
  rewrite fst_bind. unfold lift. cbn [fst snd app]. reflexivity.
Qed.

Lemma _get_host_for_auth_no_get_creds {client : Type} (svc : services client)
    (c : cluster) :
  filter is_get_creds_call (fst (_get_host_for_auth svc c)) = [].
Proof.
  unfold _get_host_for_auth. rewrite fst_bind_lift.
  destruct (_get_online_controller c) as [controller | e]; [ | reflexivity].
  unfold call. rewrite fst_bind. cbn [fst snd].
  destruct (get_ip_by_network_name svc controller) as [net | e];
    [ | reflexivity].
  unfold getattr. rewrite fst_bind. cbn [emit fst snd].
  destruct (fetch_attr net "ip_addr"); reflexivity.
Qed.

Lemma compute_credentials_get_creds {client : Type} (svc : services client)
    (c : cluster) :
  filter is_get_creds_call (fst (compute_credentials svc c))
  = [ECall "Cluster.get_creds"].
Proof.
  unfold compute_credentials. rewrite fst_bind, filter_app.
  unfold call at 1 2. cbn [fst snd filter is_get_creds_call].
  change ("Cluster.get_creds" =? "Cluster.get_creds") with true.
  cbn [app]. f_equal.
  destruct (Cluster_get_creds svc c) as [access_data | e]; [ | reflexivity].
  repeat (rewrite fst_bind_lift;
          match goal with
          | |- context [match ?r with Ok _ => _ | Err _ => _ end] =>
              destruct r; [ | reflexivity]
          end).
  rewrite fst_bind, filter_app, _get_host_for_auth_no_get_creds.
  destruct (snd (_get_host_for_auth svc c)); reflexivity.
Qed.

Lemma _get_keystone_client_no_get_creds {client : Type}
    (svc : services client) (auth_creds : auth_kwargs) :
  filter is_get_creds_call (fst (_get_keystone_client svc auth_creds)) = [].
Proof.
  unfold _get_keystone_client. rewrite fst_bind, filter_app.
  unfold call at 1 2. cbn [fst snd filter is_get_creds_call app].
  destruct (keystone_Discover svc auth_creds) as [version_data | e];
    [ | reflexivity].
  induction version_data as [| [| version minor] rest IH];
    cbn [keystone_client_for]; try reflexivity.
  destruct (version <=? 2)%Z; [reflexivity | ].
  destruct (version =? 3)%Z; [reflexivity | exact IH].
Qed.

(** X23: once [nova] has made its client, the credentials are in the cache:
    making the nova client called [get_creds] at most once, and making the
    cinder and keystone clients afterwards does not call it again. *)
Theorem get_creds_is_not_called_again {client : Type} (svc : services client)
    (self self1 : ClientProvider client) (t : list event) (x : client) :
  _nova self = None ->
  nova svc self = (t, Ok x, self1) ->
  length (filter is_get_creds_call t) <= 1 /\
  filter is_get_creds_call (fst (fst (cinder svc self1))) = [] /\
  filter is_get_creds_call (fst (fst (keystone svc self1))) = [].
Proof.
  intros Hn. rewrite (nova_fresh _ _ Hn).
  destruct (credentials svc self) as [[t' [c | e]] s] eqn:Hc; [ | discriminate].
  destruct (nova_Client svc c) as [y | ]; [ | discriminate].
  intros [= <- <- <-].
  pose proof (credentials_after _ _ _ _ _ Hc) as [_ [_ [_ [_ Hcached]]]].
  assert (_credentials (set_nova s y) = Some c) as Hcached' by exact Hcached.
  split; [ | split].
  - rewrite filter_app. cbn [filter is_get_creds_call app].
    change ("nova_client.Client" =? "Cluster.get_creds") with false.
    rewrite app_nil_r.
    destruct (_credentials self) as [c' | ] eqn:Hold.
    + rewrite (credentials_cached _ _ _ Hold) in Hc.
      injection Hc as <- _ _. cbn. lia.
    + rewrite (credentials_fresh _ _ Hold) in Hc.
      destruct (snd (compute_credentials svc (its_cluster self)));
        injection Hc as <- _ _;
        rewrite compute_credentials_get_creds; cbn; lia.
  - destruct (_cinder (set_nova s y)) as [z | ] eqn:Hy.
    + now rewrite (cinder_cached _ _ _ Hy).
    + rewrite (cinder_fresh _ _ Hy), (credentials_cached _ _ _ Hcached').
      destruct (cinder_Client svc c); reflexivity.
  - destruct (_keystone (set_nova s y)) as [z | ] eqn:Hy.
    + now rewrite (keystone_cached _ _ _ Hy).
    + rewrite (keystone_fresh _ _ Hy), (credentials_cached _ _ _ Hcached').
      destruct (snd (_get_keystone_client svc (auth_kwargs_of c)));
        cbn [fst snd app]; apply _get_keystone_client_no_get_creds.
Qed.

Lemma get_creds_is_not_called_again_witness :
  length (filter is_get_creds_call
            [ECall "Cluster.get_creds";
             ECall "NetworkManager._get_ip_by_network_name";
             EGetattr "ip_addr"; ECall "nova_client.Client"]) <= 1 /\
  filter is_get_creds_call
    (fst (fst (cinder (example_services [[2; 0]%Z])
                 (set_nova (set_credentials
                              (new_provider string example_cluster)
                              example_creds) "nova")))) = [] /\
  filter is_get_creds_call
    (fst (fst (keystone (example_services [[2; 0]%Z])
                 (set_nova (set_credentials
                              (new_provider string example_cluster)
                              example_creds) "nova")))) = [].
Proof.
  apply (get_creds_is_not_called_again (example_services [[2; 0]%Z])
           (new_provider string example_cluster) _ _ "nova");
    reflexivity.
Defined.

(** X24: an access to [nova], [cinder] or [keystone] that raises caches no
    client: the cache of that client is still empty, so the next access
    tries again, and the other two clients are as before. *)
Theorem failed_access_caches_no_client {client : Type}
    (svc : services client) (self self1 : ClientProvider client)
    (t : list event) (e : exn) :
  (nova svc self = (t, Err e, self1) ->
   _nova self1 = None /\ _cinder self1 = _cinder self /\
   _keystone self1 = _keystone self) /\
  (cinder svc self = (t, Err e, self1) ->
   _cinder self1 = None /\ _nova self1 = _nova self /\
   _keystone self1 = _keystone self) /\
  (keystone svc self = (t, Err e, self1) ->
   _keystone self1 = None /\ _nova self1 = _nova self /\
   _cinder self1 = _cinder self).
Proof.
  split; [ | split].
  - destruct (_nova self) as [x | ] eqn:Hn.
    + now rewrite (nova_cached _ _ _ Hn).
    + rewrite (nova_fresh _ _ Hn).
      destruct (credentials svc self) as [[t' r] s] eqn:Hc.
      apply credentials_after in Hc. destruct Hc as [_ [H1 [H2 [H3 _]]]].
      destruct r as [c | e'];
        [destruct (nova_Client svc c); [discriminate | ] | ];
        intros [= <- <- <-]; repeat split; congruence.
  - destruct (_cinder self) as [x | ] eqn:Hn.
    + now rewrite (cinder_cached _ _ _ Hn).
    + rewrite (cinder_fresh _ _ Hn).
      destruct (credentials svc self) as [[t' r] s] eqn:Hc.
      apply credentials_after in Hc. destruct Hc as [_ [H1 [H2 [H3 _]]]].
      destruct r as [c | e'];
        [destruct (cinder_Client svc c); [discriminate | ] | ];
        intros [= <- <- <-]; repeat split; congruence.
  - destruct (_keystone self) as [x | ] eqn:Hn.
    + now rewrite (keystone_cached _ _ _ Hn).
    + rewrite (keystone_fresh _ _ Hn).
      destruct (credentials svc self) as [[t' r] s] eqn:Hc.
      apply credentials_after in Hc. destruct Hc as [_ [H1 [H2 [H3 _]]]].
      destruct r as [c | e'];
        [destruct (snd (_get_keystone_client svc (auth_kwargs_of c)));
           [discriminate | ] | ];
        intros [= <- <- <-]; repeat split; congruence.
Qed.

Lemma failed_access_caches_no_client_witness :
  _nova (set_credentials (new_provider string example_cluster) example_creds)
    = None /\
  _cinder (set_credentials (new_provider string example_cluster) example_creds)
    = _cinder (new_provider string example_cluster) /\
  _keystone (set_credentials (new_provider string example_cluster)
               example_creds)
    = _keystone (new_provider string example_cluster).
Proof.
  apply (proj1 (failed_access_caches_no_client services_without_nova
                  (new_provider string example_cluster)
                  (set_credentials (new_provider string example_cluster)
                     example_creds)
                  [ECall "Cluster.get_creds";
                   ECall "NetworkManager._get_ip_by_network_name";
                   EGetattr "ip_addr"; ECall "nova_client.Client"]
                  (ClientError "unauthorized"))).
  reflexivity.
Defined.

(** ** Absent keys in a record *)

Lemma assoc_map_values {A B : Type} (f : string * A -> B)
    (l : list (string * A)) (k : string) (a : A) :
  NoDup (map fst l) ->
  In (k, a) l ->
  assoc (map (fun ka => (fst ka, f ka)) l) k = Some (f (k, a)).
Proof.
  induction l as [| [k' a'] rest IH]; cbn [map fst In assoc];
    [contradiction | ].
  intros Hnodup [Heq | Hin].
  - injection Heq as -> ->. now rewrite String.eqb_refl.
  - inversion Hnodup as [| ? ? Hfresh Hrest]; subst.
    destruct (String.eqb_spec k' k) as [-> | _].
    + exfalso. apply Hfresh. change k with (fst (k, a)). now apply in_map.
    + now apply IH.
Qed.

Lemma record_of_walk_values (d : dict) (attrs : list (string * list string)) :
  Forall (fun np : string * list string =>
            path_ends_in_dict d (snd np) = false) attrs ->
  forall inst_details,
    NoDup (map fst inst_details ++ map fst attrs) ->
    record_of (VDict d) attrs inst_details
    = Ok (inst_details ++
          map (fun np => (fst np, walk_value d (snd np))) attrs).
Proof.
  induction 1 as [| [attr_name attr_path] rest Hpath _ IH];
    intros inst_details Hnodup; cbn [record_of map fst snd].
  - now rewrite app_nil_r.
  - unfold walk_value at 1. cbn [snd] in Hpath.
    destruct (walk_not_ending_in_dict _ _ Hpath) as [v [-> _]].
    pose proof (NoDup_remove_2 _ _ _ Hnodup) as Hfresh.
    rewrite dict_set_fresh by (intros Hin; apply Hfresh, in_or_app; now left).
    rewrite IH.
    + rewrite <- app_assoc. reflexivity.
    + rewrite map_app, <- app_assoc. exact Hnodup.
Qed.

(** C7: a mapping without "status" gives None for the path ["status"]; an
    absent key at any step of a walk gives None and no exception; in the
    loop over the attributes the absent one is stored as None and the loop
    goes on; and the record that comes out holds None under the attribute
    whose key is absent and, under every attribute, what its walk returned. *)
Theorem absent_key_gives_none :
  (forall d : dict,
      assoc d "status" = None ->
      _get_value_from_nested_dict (VDict d) ["status"] = Ok VNone) /\
  (forall (d : dict) (key_path : list string),
      path_misses_key d key_path = true ->
      _get_value_from_nested_dict (VDict d) key_path = Ok VNone) /\
  (forall (inst : value) (d inst_details : dict) (attr_name : string)
          (attr_path : list string) (rest : list (string * list string)),
      snd (instance_dict inst) = Ok (VDict d) ->
      path_misses_key d attr_path = true ->
      snd (fill_inst_details inst ((attr_name, attr_path) :: rest)
             inst_details)
      = snd (fill_inst_details inst rest
               (dict_set inst_details attr_name VNone))) /\
  (forall (inst : value) (d : dict) (attrs : list (string * list string))
          (attr_name : string) (attr_path : list string),
      snd (instance_dict inst) = Ok (VDict d) ->
      NoDup (map fst attrs) ->
      In (attr_name, attr_path) attrs ->
      path_misses_key d attr_path = true ->
      Forall (fun np : string * list string =>
                path_ends_in_dict d (snd np) = false) attrs ->
      exists rec,
        snd (fill_inst_details inst attrs []) = Ok rec /\
        assoc rec attr_name = Some VNone /\
        forall name key_path,
          In (name, key_path) attrs ->
          exists v,
            _get_value_from_nested_dict (VDict d) key_path = Ok v /\
            assoc rec name = Some v).
Proof.
  split; [ | split; [ | split]].
  - intros d H. apply walk_on_missing_key. cbn [path_misses_key].
    rewrite H. reflexivity.
  - intros d key_path. apply walk_on_missing_key.
  - intros inst d inst_details attr_name attr_path rest Hd Hmiss.
    rewrite !(fill_inst_details_record_of _ _ _ Hd).
    cbn [record_of]. rewrite (walk_on_missing_key _ _ Hmiss). reflexivity.
  - intros inst d attrs attr_name attr_path Hd Hnodup Hin Hmiss Hpaths.
    eexists. split; [ | split].
    + rewrite (fill_inst_details_record_of _ _ _ Hd).
      now apply (record_of_walk_values _ _ Hpaths []).
    + cbn [app].
      rewrite (assoc_map_values (fun np => walk_value d (snd np))
                 _ _ _ Hnodup Hin).
      cbn [snd]. unfold walk_value.
      now rewrite (walk_on_missing_key _ _ Hmiss).
    + intros name key_path Hin'. cbn [app].
      rewrite (assoc_map_values (fun np => walk_value d (snd np))
                 _ _ _ Hnodup Hin').
      cbn [snd]. unfold walk_value.
      rewrite Forall_forall in Hpaths.
      pose proof (Hpaths _ Hin') as Hpath. cbn [snd] in Hpath.
      destruct (walk_not_ending_in_dict _ _ Hpath) as [v [-> _]].
      now exists v.
Qed.

Lemma absent_key_gives_none_witness :
  _get_value_from_nested_dict (VDict [("id", VStr "i-1")]) ["status"]
    = Ok VNone /\
  _get_value_from_nested_dict (VDict [("flavor", VDict [("name", VStr "m1")])])
    ["flavor"; "id"] = Ok VNone /\
  snd (fill_inst_details (plain_instance [("id", VStr "i-1")])
         [("status", ["status"]); ("id", ["id"])] [])
  = snd (fill_inst_details (plain_instance [("id", VStr "i-1")])
           [("id", ["id"])] (dict_set [] "status" VNone)) /\
  exists rec,
    snd (fill_inst_details (plain_instance [("id", VStr "i-1")])
           [("status", ["status"]); ("id", ["id"])] []) = Ok rec /\
    assoc rec "status" = Some VNone /\
    forall name key_path,
      In (name, key_path) [("status", ["status"]); ("id", ["id"])] ->
      exists v,
        _get_value_from_nested_dict (VDict [("id", VStr "i-1")]) key_path
          = Ok v /\
        assoc rec name = Some v.
Proof.
  split; [ | split; [ | split]].
  - apply (proj1 absent_key_gives_none). reflexivity.
  - apply (proj1 (proj2 absent_key_gives_none)). reflexivity.
  - apply (proj1 (proj2 (proj2 absent_key_gives_none))
             (plain_instance [("id", VStr "i-1")]) [("id", VStr "i-1")]);
      reflexivity.
  - apply (proj2 (proj2 (proj2 absent_key_gives_none))
             (plain_instance [("id", VStr "i-1")]) [("id", VStr "i-1")]
             [("status", ["status"]); ("id", ["id"])] "status" ["status"]).
    + reflexivity.
    + repeat (apply NoDup_cons; [cbn [In]; intuition discriminate | ]).
      apply NoDup_nil.
    + now left.
    + reflexivity.
    + repeat constructor.
Defined.
